(** * ZabUX: the map widget initializer (app/static/js/map.js)

    The script registers one [DOMContentLoaded] listener on the document.
    The listener creates a Leaflet map on the element named [map], sets its
    view, builds one tile layer and adds it to the map.

    The script itself is embedded as a sequence of library calls
    ([Script]); the calls are given meaning by a handler over an explicit
    page state ([World]).  The handler follows the behaviour of the Leaflet
    1.x functions the script calls ([L.map], [Map.setView], [L.tileLayer],
    [Layer.addTo], [TileLayer.getTileUrl], [Util.template]); Leaflet is a
    third-party library and not part of this repository.  What Leaflet
    derives from pixel geometry (which tiles a viewport shows) stays a
    parameter of the development. *)

From Stdlib Require Import PrimFloat ZArith Ascii.
From stdpp Require Import gmap strings list pretty.

Set Warnings "-inexact-float".
Open Scope Z_scope.

(** ** JavaScript values the script passes around *)

(** A coordinate pair, as in the array literal [[32.7079, -96.9209]]:
    two IEEE binary64 numbers. *)
Record LatLng := { lat : float; lng : float }.

(** The options object literal given to [L.tileLayer]. *)
Record TileOptions := {
  attribution : string;
  subdomains : string;
  maxZoom : Z
}.

(** References to the objects Leaflet allocates: JavaScript objects are
    shared by reference, so the script holds addresses into a store.
    Zoom levels are integers: the script's are integer literals, and at the
    default [zoomSnap] of 1 Leaflet rounds every zoom to an integer. *)
Abbreviation MapRef := nat (only parsing).
Abbreviation LayerRef := nat (only parsing).

(** ** The script as a sequence of library calls *)

Inductive Call : Type -> Type :=
| L_map (id : string) : Call MapRef
| setView (m : MapRef) (center : LatLng) (zoom : Z) : Call MapRef
| L_tileLayer (urlTemplate : string) (options : TileOptions) : Call LayerRef
| addTo (layer : LayerRef) (m : MapRef) : Call LayerRef.

Inductive Script (A : Type) : Type :=
| Return (a : A)
| Do {X : Type} (c : Call X) (k : X -> Script A).

Arguments Return {A} a.
Arguments Do {A X} c k.

Notation "'let!' x ':=' c 'in' k" := (Do c (fun x => k))
  (at level 10, x name, c at level 100, k at level 200).

(** The double-quote character of the attribution markup. *)
Definition dq : string := String (Ascii.ascii_of_nat 34) EmptyString.

(** The anonymous function passed to [addEventListener] (map.js, lines 1-10). *)
Definition init : Script unit :=
  let! m := L_map "map" in
  let! map := setView m {| lat := 32.7079; lng := -96.9209 |} 10 in
  let! layer :=
    L_tileLayer "https://{s}.basemaps.cartocdn.com/dark_all/{z}/{x}/{y}{r}.png"
      {| attribution :=
           "&copy; <a href=" +:+ dq +:+ "https://www.openstreetmap.org/" +:+ dq
           +:+ ">OpenStreetMap</a> contributors &copy; <a href=" +:+ dq
           +:+ "https://carto.com/" +:+ dq +:+ ">CARTO</a>";
         subdomains := "abcd";
         maxZoom := 19 |} in
  let! _ := addTo layer map in
  Return tt.

(** The top-level statement of the file registers [init] on the document;
    see [main] below, after the browser state is defined. *)

(** ** Page state *)

(** A DOM element: its [id] attribute, the [_leaflet_id] expando Leaflet
    stamps on it, and the nodes inserted under it. *)
Record Element := {
  el_id : string;
  el_leaflet_id : option nat;
  el_children : list string
}.

(** A Leaflet [Map] object. *)
Record MapView := {
  _containerId : nat;
  _loaded : bool;
  _lastCenter : option LatLng;
  _zoom : option Z;
  _layers : gmap nat LayerRef;
  _layersMaxZoom : option Z
}.

(** A Leaflet [TileLayer] object.  [_tileZoom] is the zoom level of the
    tiles the layer shows, undefined while it shows none. *)
Record TileLayer := {
  _url : string;
  options : TileOptions;
  layer_leaflet_id : option nat;
  _map : option MapRef;
  _tileZoom : option Z
}.

Record World := {
  dom : list Element;             (* the page's elements, document order *)
  lastId : nat;                   (* Leaflet's stamp counter, Util.lastId *)
  maps : list MapView;            (* store of Map objects *)
  layers : list TileLayer;        (* store of TileLayer objects *)
  requests : list string;         (* tile image URLs requested so far *)
  storage : gmap string string    (* persisted state (localStorage) *)
}.

Inductive Result (A : Type) : Type :=
| Ok (a : A)
| Throw (message : string).

Arguments Ok {A} a.
Arguments Throw {A} message.

(** Tile coordinates: column, row and zoom level, whole numbers as the
    grid computes them.  JS holds them as binary64 numbers, which is the
    same thing as long as they and their sum stay below 2^53 in size; a
    grid at zoom 19 has 2^19 columns and rows. *)
Record Coords := { tile_x : Z; tile_y : Z; tile_z : Z }.

(** ** Leaflet utilities *)

(** JavaScript truthiness of an [_leaflet_id] property. *)
Definition truthy (o : option nat) : bool :=
  match o with
  | Some (S _) => true
  | _ => false
  end.

(** [Util.stamp]: [obj._leaflet_id = obj._leaflet_id || ++lastId], as
    Leaflet has it up to 1.7.  From 1.8 on the test is
    ['_leaflet_id' in obj]; the two differ only on an object that already
    carries the stamp 0, a value Leaflet never writes (its counter starts
    at 1) and no page built by [load] holds.  Returns the id and the new
    counter.  In a browser the counter is shared with everything else
    Leaflet stamps (the map's handlers and controls, listeners' contexts),
    so the numbers there are larger; what matters below is whether an
    object carries a stamp, not which. *)
Definition stamp (o : option nat) (last : nat) : nat * nat :=
  match o with
  | Some (S n) => (S n, last)
  | _ => (S last, S last)
  end.

(** [document.getElementById]: the first element with the id, and its
    position. *)
Fixpoint getElementById (id : string) (d : list Element) : option (nat * Element) :=
  match d with
  | [] => None
  | e :: d' =>
      if String.eqb (el_id e) id then Some (0%nat, e)
      else match getElementById id d' with
           | Some (i, e') => Some (S i, e')
           | None => None
           end
  end.

Definition is_word_char (c : Ascii.ascii) : bool :=
  let n := Ascii.nat_of_ascii c in
  ((48 <=? n) && (n <=? 57) || (65 <=? n) && (n <=? 90)
   || (97 <=? n) && (n <=? 122) || (n =? 95))%nat.

(** The characters of the class [[\w_ -]] in [Util.template]'s pattern. *)
Definition is_key_char (c : Ascii.ascii) : bool :=
  is_word_char c || Ascii.eqb c " "%char || Ascii.eqb c "-"%char.

Fixpoint strip_spaces (s : string) : string :=
  match s with
  | String c s' => if Ascii.eqb c " "%char then strip_spaces s' else s
  | EmptyString => EmptyString
  end.

(** The key captured from the text between the braces: the pattern
    [\{ *([\w_ -]+) *\}] is greedy, so leading spaces are dropped and
    trailing ones are part of the key; a run of spaces only yields one
    space. *)
Definition key_of (run : string) : string :=
  match strip_spaces run with
  | EmptyString => " "
  | k => k
  end.

Definition prepend (p : string) (r : Result string) : Result string :=
  match r with
  | Ok s => Ok (p +:+ s)
  | Throw e => Throw e
  end.

(** [Util.template str data], scanning [str] from the left.  [pending] is
    [Some run] after an opening brace followed by the key characters
    [run]. *)
Fixpoint template_from (data : gmap string string) (pending : option string)
    (str : string) : Result string :=
  match str, pending with
  | EmptyString, None => Ok EmptyString
  | EmptyString, Some run => Ok ("{" +:+ run)
  | String c rest, None =>
      if Ascii.eqb c "{"%char then template_from data (Some EmptyString) rest
      else prepend (String c EmptyString) (template_from data None rest)
  | String c rest, Some run =>
      if is_key_char c then
        template_from data (Some (run +:+ String c EmptyString)) rest
      else if Ascii.eqb c "}"%char && negb (String.eqb run EmptyString) then
        match data !! key_of run with
        | Some v => prepend v (template_from data None rest)
        | None => Throw ("No value provided for variable {" +:+ run +:+ "}")
        end
      else if Ascii.eqb c "{"%char then
        prepend ("{" +:+ run) (template_from data (Some EmptyString) rest)
      else
        prepend ("{" +:+ run +:+ String c EmptyString) (template_from data None rest)
  end.

Definition template (str : string) (data : gmap string string) : Result string :=
  template_from data None str.

(** Field updates of the page state. *)
Definition with_lastId (w : World) (n : nat) : World :=
  {| dom := dom w; lastId := n; maps := maps w; layers := layers w;
     requests := requests w; storage := storage w |}.
Definition with_maps (w : World) (ms : list MapView) : World :=
  {| dom := dom w; lastId := lastId w; maps := ms; layers := layers w;
     requests := requests w; storage := storage w |}.
Definition with_layers (w : World) (ls : list TileLayer) : World :=
  {| dom := dom w; lastId := lastId w; maps := maps w; layers := ls;
     requests := requests w; storage := storage w |}.
Definition with_requests (w : World) (rs : list string) : World :=
  {| dom := dom w; lastId := lastId w; maps := maps w; layers := layers w;
     requests := rs; storage := storage w |}.

Definition attach (ly : TileLayer) (m : MapRef) : TileLayer :=
  {| _url := _url ly; options := options ly;
     layer_leaflet_id := layer_leaflet_id ly; _map := Some m;
     _tileZoom := _tileZoom ly |}.

Definition stamped (ly : TileLayer) (id : nat) : TileLayer :=
  {| _url := _url ly; options := options ly;
     layer_leaflet_id := Some id; _map := _map ly;
     _tileZoom := _tileZoom ly |}.

Definition at_zoom (ly : TileLayer) (tileZoom : option Z) : TileLayer :=
  {| _url := _url ly; options := options ly;
     layer_leaflet_id := layer_leaflet_id ly; _map := _map ly;
     _tileZoom := tileZoom |}.

Fixpoint join_chars (s : string) : string :=
  match s with
  | EmptyString => EmptyString
  | String c EmptyString => String c EmptyString
  | String c s' => String c ("," +:+ join_chars s')
  end.

(** ** Running a script *)

(** A library call made by a script, as recorded in a trace. *)
Inductive Event : Type :=
| Called {X : Type} (c : Call X).

Definition Handler := forall X : Type, Call X -> World -> Result X * World.

(** Statements run in order; a call that throws ends the script, since
    the script catches nothing. *)
Fixpoint run_with {A : Type} (h : Handler) (s : Script A) (w : World)
    : Result A * World * list Event :=
  match s with
  | Return a => (Ok a, w, [])
  | Do c k =>
      match h _ c w with
      | (Ok x, w') =>
          let '(r, w'', t) := run_with h (k x) w' in (r, w'', Called c :: t)
      | (Throw e, w') => (Throw e, w', [Called c])
      end
  end.

(** ** The document and its listeners *)

(** The listeners kept are the ones scripts of the page register on the
    document.  Leaflet registers listeners of its own once a map exists
    (keys on the focused map, pointer events during a drag); they are not
    in this list, and what they do to a map is a gesture ([Pan], [Zoom],
    [Move]). *)
Record Browser := {
  page : World;
  listeners : list (string * Script unit);   (* listeners scripts registered *)
  console : list string;                     (* uncaught errors, as reported *)
  calls : list Event                         (* library calls made so far *)
}.

(** [document.addEventListener(type, listener)]. *)
Definition addEventListener (type : string) (listener : Script unit) (b : Browser)
    : Browser :=
  {| page := page b; listeners := listeners b ++ [(type, listener)];
     console := console b; calls := calls b |}.

(** The script file (map.js, line 1): its only top-level statement. *)
Definition main (b : Browser) : Browser :=
  addEventListener "DOMContentLoaded" init b.

(** An element as the HTML of the page declares it. *)
Record Node := { node_id : string; node_children : list string }.

Definition element_of (n : Node) : Element :=
  {| el_id := node_id n; el_leaflet_id := None; el_children := node_children n |}.

(** The state of a page that has just been parsed: no Leaflet object
    exists, no listener is registered. *)
Definition load (p : list Node) (st : gmap string string) : Browser :=
  {| page := {| dom := element_of <$> p; lastId := 0%nat; maps := []; layers := [];
                requests := []; storage := st |};
     listeners := []; console := []; calls := [] |}.

Definition has_element (id : string) (p : list Node) : Prop :=
  id ∈ node_id <$> p.

(** What happens in a page: the script file is executed, an event is
    dispatched on the document, the user acts on a map.  A drag ([Pan])
    ends on some centre, whichever the pointer movement gives, at the zoom
    the map has; the zoom control or keys ([Zoom]) ask for a level at the
    centre the map has; any other gesture (wheel, pinch, box zoom, double
    click) ends on some centre and asks for some level ([Move]).  What
    Leaflet's own listeners do on a key or pointer event is such an action;
    [Fire] stands for the listeners the script registered. *)
Inductive Action : Type :=
| RunScript
| Fire (type : string)
| Pan (m : MapRef) (center : LatLng)
| Zoom (m : MapRef) (zoom : Z)
| Move (m : MapRef) (center : LatLng) (zoom : Z).

(** ** Reading a script and a trace *)

(** The calls a script makes when every call succeeds. *)
Definition placeholder {X : Type} (c : Call X) : X :=
  match c with
  | L_map _ => 0%nat
  | setView m _ _ => m
  | L_tileLayer _ _ => 0%nat
  | addTo l _ => l
  end.

Fixpoint calls_of {A : Type} (s : Script A) : list Event :=
  match s with
  | Return _ => []
  | Do c k => Called c :: calls_of (k (placeholder c))
  end.

Definition views_set (t : list Event) : list (LatLng * Z) :=
  omap (fun e => match e with
                 | Called c =>
                     match c with
                     | setView _ center zoom => Some (center, zoom)
                     | _ => None
                     end
                 end) t.

Definition layers_made (t : list Event) : list (string * TileOptions) :=
  omap (fun e => match e with
                 | Called c =>
                     match c with
                     | L_tileLayer url o => Some (url, o)
                     | _ => None
                     end
                 end) t.

(** The characters of a printed integer: digits and the minus sign. *)
Definition is_num_char (c : Ascii.ascii) : bool :=
  let n := Ascii.nat_of_ascii c in
  ((48 <=? n) && (n <=? 57) || (n =? 45))%nat.

Fixpoint all_num (s : string) : bool :=
  match s with
  | EmptyString => true
  | String c s' => is_num_char c && all_num s'
  end.

(** The layers handed to [addTo], each with the map it was added to. *)
Definition layers_added (t : list Event) : list (nat * nat) :=
  omap (fun e => match e with
                 | Called c =>
                     match c with
                     | addTo l m => Some (l, m)
                     | _ => None
                     end
                 end) t.

(** How many times a map was asked for: once per run of the initializer. *)
Definition maps_requested (t : list Event) : nat :=
  length (filter (fun e => match e with
                           | Called c =>
                               match c with
                               | L_map _ => true
                               | _ => false
                               end
                           end = true) t).

(** The container ids [L.map] was called with, in order. *)
Definition containers_asked (t : list Event) : list string :=
  omap (fun e => match e with
                 | Called c =>
                     match c with
                     | L_map id => Some id
                     | _ => None
                     end
                 end) t.

(** A valid geographic coordinate. *)
Definition valid_latlng (c : LatLng) : bool :=
  (PrimFloat.leb (-90)%float (lat c) && PrimFloat.leb (lat c) 90%float
   && PrimFloat.leb (-180)%float (lng c) && PrimFloat.leb (lng c) 180%float)%bool.

Definition is_page_ready (a : Action) : bool :=
  match a with
  | Fire type => String.eqb type "DOMContentLoaded"
  | _ => false
  end.

(** ** Sample pages *)

Definition sample_page : list Node :=
  [ {| node_id := "nav"; node_children := ["ul"] |};
    {| node_id := "map"; node_children := [] |} ].

Definition bare_page : list Node :=
  [ {| node_id := "nav"; node_children := ["ul"] |} ].

(** Two tiles at the zoom of the view when nothing has been requested
    yet, afterwards one further column each time. *)
Definition sample_tiles (requested : list string) (mv : MapView) (ly : TileLayer)
    : list Coords :=
  match _zoom mv, requested with
  | Some z, [] => [ {| tile_x := 1; tile_y := 2; tile_z := z |};
                    {| tile_x := 2; tile_y := 2; tile_z := z |} ]
  | Some z, _ :: _ =>
      [ {| tile_x := Z.of_nat (length requested) + 1; tile_y := 2; tile_z := z |} ]
  | None, _ => []
  end.

Definition sample_world : World := page (load sample_page ∅).

Definition sample_mount : Element :=
  {| el_id := "map"; el_leaflet_id := None; el_children := [] |}.

(** ** The Leaflet calls of the script *)

Section Leaflet.

(** [Browser.retina]: whether the display is high-resolution. *)
Variable retina : bool.

(** The tiles a layer has yet to fetch for a map view.  Leaflet takes the
    tiles the view covers (from the container's pixel size and the
    Web-Mercator projection of the view) and leaves out those the layer
    holds; what it holds follows from what was fetched before and from
    image loading.  The function is given everything requested so far;
    nothing else is fixed about it. *)
Variable tiles_to_load : list string -> MapView -> TileLayer -> list Coords.

(** [TileLayer._getSubdomain]:
    [subdomains[Math.abs(x + y) % subdomains.length]].  The constructor
    splits a string of subdomains into its characters; indexing the string
    gives the same character. *)
Definition _getSubdomain (ly : TileLayer) (c : Coords) : option string :=
  let subs := subdomains (options ly) in
  let index := Z.abs (tile_x c + tile_y c) `mod` Z.of_nat (String.length subs) in
  (fun ch => String ch EmptyString) <$> String.get (Z.to_nat index) subs.

(** The object [getTileUrl] hands to [Util.template]: the tile's
    variables, extended with the layer's options.  [z] is the layer's
    current tile zoom ([_getZoomForUrl]: [_tileZoom + zoomOffset], the
    offset being 0), not the [z] of the coordinates; an undefined tile
    zoom prints as [NaN].  [-y] is the row counted from the other end of
    the world's tile range, for a layer that shows tiles on a map.  Of the
    options, the ones the script gives are listed; the defaults Leaflet
    inherits besides them are left out, none of which is named like a
    variable of the tile. *)
Definition tile_data (ly : TileLayer) (c : Coords) : gmap string string :=
  let data : gmap string string :=
    {[ "r" := if retina then "@2x" else EmptyString;
       "x" := pretty (tile_x c);
       "y" := pretty (tile_y c);
       "z" := match _tileZoom ly with
              | Some z => pretty z
              | None => "NaN"
              end ]} in
  let data :=
    match _getSubdomain ly c with
    | Some s => <["s" := s]> data
    | None => data
    end in
  let data :=
    match _map ly, _tileZoom ly with
    | Some _, Some z => <["-y" := pretty (2 ^ z - 1 - tile_y c)]> data
    | _, _ => data
    end in
  <["attribution" := attribution (options ly)]>
    (<["subdomains" := join_chars (subdomains (options ly))]>
       (<["maxZoom" := pretty (maxZoom (options ly))]> data)).

(** [TileLayer.getTileUrl]. *)
Definition getTileUrl (ly : TileLayer) (c : Coords) : Result string :=
  template (_url ly) (tile_data ly c).

(** Creating the tiles of a layer: each tile image gets its URL as source,
    which issues the request. *)
Fixpoint request_tiles (ly : TileLayer) (cs : list Coords) (w : World)
    : Result unit * World :=
  match cs with
  | [] => (Ok tt, w)
  | c :: cs' =>
      match getTileUrl ly c with
      | Ok u => request_tiles ly cs' (with_requests w (requests w ++ [u]))
      | Throw e => (Throw e, w)
      end
  end.

(** [GridLayer._setView]: the tile zoom of a layer on a map is the map's
    zoom, or undefined when that lies outside the layer's [minZoom] (0 by
    default) and [maxZoom]. *)
Definition tile_zoom_for (ly : TileLayer) (mv : MapView) : option Z :=
  match _zoom mv with
  | Some z => if (maxZoom (options ly) <? z) || (z <? 0) then None else Some z
  | None => None
  end.

(** [Layer._layerAdd] followed by [GridLayer.onAdd], and [GridLayer._update]
    for a layer already shown: the layer is bound to the map, takes its
    tile zoom from the map's zoom and, unless that is undefined, fetches
    the tiles it has yet to fetch for the current view. *)
Definition show_layer (m : MapRef) (l : LayerRef) (w : World) : Result unit * World :=
  match maps w !! m, layers w !! l with
  | Some mv, Some ly =>
      let ly' := at_zoom (attach ly m) (tile_zoom_for ly mv) in
      let w' := with_layers w (<[l := ly']> (layers w)) in
      match _tileZoom ly' with
      | Some _ => request_tiles ly' (tiles_to_load (requests w) mv ly') w'
      | None => (Ok tt, w')
      end
  | _, _ => (Ok tt, w)
  end.

(** The layers of a map reacting to a new view.  On the first view ([first])
    every layer waiting for the map is shown; later only the layers shown on
    this map update. *)
Fixpoint show_layers (m : MapRef) (first : bool) (ls : list LayerRef) (w : World)
    : Result unit * World :=
  match ls with
  | [] => (Ok tt, w)
  | l :: ls' =>
      match layers w !! l with
      | Some ly =>
          if first || bool_decide (_map ly = Some m) then
            match show_layer m l w with
            | (Ok _, w') => show_layers m first ls' w'
            | (Throw e, w') => (Throw e, w')
            end
          else show_layers m first ls' w
      | None => show_layers m first ls' w
      end
  end.

(** [Map._limitZoom] at the default [zoomSnap]: the minimum is 0 (no layer
    of this model raises it), the maximum is the layers' largest [maxZoom],
    or none. *)
Definition _limitZoom (mv : MapView) (zoom : Z) : Z :=
  Z.max 0 (match _layersMaxZoom mv with
           | Some mx => Z.min mx zoom
           | None => zoom
           end).

(** The map once its view is set: the zoom is limited, the map counts as
    loaded. *)
Definition moved (mv : MapView) (center : LatLng) (zoom : Z) : MapView :=
  {| _containerId := _containerId mv; _loaded := true;
     _lastCenter := Some center; _zoom := Some (_limitZoom mv zoom);
     _layers := _layers mv; _layersMaxZoom := _layersMaxZoom mv |}.

(** [Map.setView] without animation: the view is reset and the layers
    follow.  A reference that names no object cannot occur in JavaScript;
    the model answers it with an exception. *)
Definition view_reset (m : MapRef) (center : LatLng) (zoom : Z) (w : World)
    : Result unit * World :=
  match maps w !! m with
  | Some mv =>
      show_layers m (negb (_loaded mv)) (map_to_list (_layers mv)).*2
        (with_maps w (<[m := moved mv center zoom]> (maps w)))
  | None => (Throw "TypeError", w)
  end.

(** [L.map(id)]: [Map.initialize] with [_initContainer] and [_initLayout]. *)
Definition do_map (id : string) (w : World) : Result MapRef * World :=
  match getElementById id (dom w) with
  | None => (Throw "Map container not found.", w)
  | Some (i, el) =>
      if truthy (el_leaflet_id el) then
        (Throw "Map container is already initialized.", w)
      else
        let '(cid, last) := stamp (el_leaflet_id el) (lastId w) in
        let el' :=
          {| el_id := el_id el; el_leaflet_id := Some cid;
             el_children := el_children el
               ++ ["leaflet-pane leaflet-map-pane"; "leaflet-control-container"] |} in
        let mv :=
          {| _containerId := cid; _loaded := false; _lastCenter := None;
             _zoom := None; _layers := ∅; _layersMaxZoom := None |} in
        (Ok (length (maps w)),
         {| dom := <[i := el']> (dom w); lastId := last;
            maps := maps w ++ [mv]; layers := layers w;
            requests := requests w; storage := storage w |})
  end.

Definition do_setView (m : MapRef) (center : LatLng) (zoom : Z) (w : World)
    : Result MapRef * World :=
  match view_reset m center zoom w with
  | (Ok _, w') => (Ok m, w')
  | (Throw e, w') => (Throw e, w')
  end.

(** [L.tileLayer(url, options)]. *)
Definition do_tileLayer (url : string) (o : TileOptions) (w : World)
    : Result LayerRef * World :=
  (Ok (length (layers w)),
   with_layers w (layers w ++
     [{| _url := url; options := o; layer_leaflet_id := None; _map := None;
         _tileZoom := None |}])).

(** The largest [maxZoom] among a map's layers ([Map._updateZoomLevels]). *)
Definition layers_max_zoom (heap : list TileLayer) (ls : gmap nat LayerRef) : option Z :=
  foldr (fun l acc =>
           match heap !! l with
           | Some ly =>
               Some (match acc with
                     | Some a => Z.max a (maxZoom (options ly))
                     | None => maxZoom (options ly)
                     end)
           | None => acc
           end) None (map_to_list ls).*2.

(** [layer.addTo(map)], that is [map.addLayer(layer)]: the layer is stamped
    and registered, the map's zoom limits are updated (a zoom above the new
    limit is lowered to it), and on a map with a view the layer is shown at
    once. *)
Definition do_addTo (l : LayerRef) (m : MapRef) (w : World) : Result LayerRef * World :=
  match layers w !! l, maps w !! m with
  | Some ly, Some mv =>
      let '(id, last) := stamp (layer_leaflet_id ly) (lastId w) in
      let heap := <[l := stamped ly id]> (layers w) in
      let w1 := with_layers (with_lastId w last) heap in
      match _layers mv !! id with
      | Some _ => (Ok l, w1)
      | None =>
          let ls := <[id := l]> (_layers mv) in
          let mx := layers_max_zoom heap ls in
          let mv1 :=
            {| _containerId := _containerId mv; _loaded := _loaded mv;
               _lastCenter := _lastCenter mv; _zoom := _zoom mv;
               _layers := ls; _layersMaxZoom := mx |} in
          let w2 := with_maps w1 (<[m := mv1]> (maps w1)) in
          let limited :=
            match mx, _zoom mv with
            | Some z', Some z =>
                if (z' =? 0) || (z <=? z') then (Ok tt, w2)
                else if _loaded mv then
                  match _lastCenter mv with
                  | Some c => view_reset m c z' w2
                  | None => (Ok tt, w2)
                  end
                else
                  (Ok tt, with_maps w1 (<[m :=
                     {| _containerId := _containerId mv; _loaded := false;
                        _lastCenter := _lastCenter mv; _zoom := Some z';
                        _layers := ls; _layersMaxZoom := mx |} ]> (maps w1)))
            | _, _ => (Ok tt, w2)
            end in
          match limited with
          | (Ok _, w3) =>
              if _loaded mv then
                match show_layer m l w3 with
                | (Ok _, w4) => (Ok l, w4)
                | (Throw e, w4) => (Throw e, w4)
                end
              else (Ok l, w3)
          | (Throw e, w3) => (Throw e, w3)
          end
      end
  | _, _ => (Throw "TypeError", w)
  end.

(** The meaning of each call. *)
Definition handle {X : Type} (c : Call X) (w : World) : Result X * World :=
  match c with
  | L_map id => do_map id w
  | setView m center zoom => do_setView m center zoom w
  | L_tileLayer url o => do_tileLayer url o w
  | addTo l m => do_addTo l m w
  end.

Definition run {A : Type} (s : Script A) (w : World) : Result A * World * list Event :=
  run_with (@handle) s w.

(** Dispatching an event on the document: the listeners of that type run
    in registration order; an exception leaving a listener is reported and
    the next listener still runs. *)
Fixpoint invoke_all (ls : list (string * Script unit)) (type : string) (b : Browser)
    : Browser :=
  match ls with
  | [] => b
  | (t, listener) :: ls' =>
      if String.eqb t type then
        let '(r, w, tr) := run listener (page b) in
        invoke_all ls' type
          {| page := w; listeners := listeners b;
             console := match r with
                        | Ok _ => console b
                        | Throw e => console b ++ [e]
                        end;
             calls := calls b ++ tr |}
      else invoke_all ls' type b
  end.

(** An event on the document, as far as the page's scripts go: their
    listeners for the type run, in the order registered. *)
Definition dispatchEvent (type : string) (b : Browser) : Browser :=
  invoke_all (listeners b) type b.

(** A gesture on a map that has a view: the map takes the view the
    gesture ends on, its zoom limited, and its layers fetch what they have
    yet to fetch for it; an exception is reported. *)
Definition interact (m : MapRef) (target : MapView -> option (LatLng * Z)) (b : Browser)
    : Browser :=
  match maps (page b) !! m with
  | Some mv =>
      match (if _loaded mv then target mv else None) with
      | Some (c, z) =>
          let '(r, w) := view_reset m c z (page b) in
          {| page := w; listeners := listeners b;
             console := match r with
                        | Ok _ => console b
                        | Throw e => console b ++ [e]
                        end;
             calls := calls b |}
      | None => b
      end
  | None => b
  end.

(** The view a gesture asks for: a drag keeps the zoom, a zoom keeps the
    center. *)
Definition target_of (a : Action) (mv : MapView) : option (LatLng * Z) :=
  match a with
  | Pan _ c => (fun z => (c, z)) <$> _zoom mv
  | Zoom _ z => (fun c => (c, z)) <$> _lastCenter mv
  | Move _ c z => Some (c, z)
  | _ => None
  end.

Definition step (b : Browser) (a : Action) : Browser :=
  match a with
  | RunScript => main b
  | Fire type => dispatchEvent type b
  | Pan m _ | Zoom m _ | Move m _ _ => interact m (target_of a) b
  end.

Definition exec (b : Browser) (acts : list Action) : Browser :=
  fold_left step acts b.

(** ** Notions used in the statements *)

(** The documented form of a tile request:
    [https://{subdomain}.basemaps.cartocdn.com/dark_all/{zoom}/{x}/{y}{resolution}.png]. *)
Definition tile_url (s : string) (z x y : Z) (r : string) : string :=
  "https://" +:+ s +:+ ".basemaps.cartocdn.com/dark_all/" +:+ pretty z +:+ "/"
  +:+ pretty x +:+ "/" +:+ pretty y +:+ r +:+ ".png".

Definition resolution : string := if retina then "@2x" else EmptyString.

(** Coordinates JS numbers hold exactly, together with their sum. *)
Definition exact_coords (c : Coords) : Prop :=
  Z.abs (tile_x c) < 2 ^ 52 /\ Z.abs (tile_y c) < 2 ^ 52.

(** The subdomain [_getSubdomain] picks for a tile out of [abcd]. *)
Definition subdomain_of (c : Coords) : string :=
  match Z.abs (tile_x c + tile_y c) `mod` 4 with
  | 0 => "a"
  | 1 => "b"
  | 2 => "c"
  | _ => "d"
  end.

(** The documented URL of a tile at a tile zoom. *)
Definition request_url (z : Z) (c : Coords) : string :=
  tile_url (subdomain_of c) z (tile_x c) (tile_y c) resolution.

Definition is_tile_request (u : string) : Prop :=
  exists s z x y, s ∈ ["a"; "b"; "c"; "d"] /\ u = tile_url s z x y resolution.

(** The tile layers registered on a map, looked up in the store. *)
Definition layers_on (w : World) (mv : MapView) : list TileLayer :=
  omap (fun l => layers w !! l) (map_to_list (_layers mv)).*2.

(** The configuration of a map: view and tile sources. *)
Record MapConfig := {
  cfg_center : option LatLng;
  cfg_zoom : option Z;
  cfg_layers : list (string * TileOptions)
}.

Definition config_of (w : World) (mv : MapView) : MapConfig :=
  {| cfg_center := _lastCenter mv; cfg_zoom := _zoom mv;
     cfg_layers := (fun ly => (_url ly, options ly)) <$> layers_on w mv |}.

(** The outcome of the initializer on a page state: the configuration of
    the maps it created, or the error that left it. *)
Definition outcome (w : World) : Result (list MapConfig) :=
  match run init w with
  | (Ok _, w', _) => Ok (config_of w' <$> drop (length (maps w)) (maps w'))
  | (Throw e, _, _) => Throw e
  end.

(** The layers the script builds. *)
Definition configured (ly : TileLayer) : Prop :=
  _url ly = "https://{s}.basemaps.cartocdn.com/dark_all/{z}/{x}/{y}{r}.png"
  /\ subdomains (options ly) = "abcd".

(** ** What a run of the initializer does *)

Definition view_center : LatLng := {| lat := 32.7079; lng := -96.9209 |}.

Definition tile_template : string :=
  "https://{s}.basemaps.cartocdn.com/dark_all/{z}/{x}/{y}{r}.png".

Definition tile_attribution : string :=
  "&copy; <a href=" +:+ dq +:+ "https://www.openstreetmap.org/" +:+ dq
  +:+ ">OpenStreetMap</a> contributors &copy; <a href=" +:+ dq
  +:+ "https://carto.com/" +:+ dq +:+ ">CARTO</a>".

Definition tile_options : TileOptions :=
  {| attribution := tile_attribution; subdomains := "abcd"; maxZoom := 19 |}.

(** The objects and the page state a successful run leaves. *)
Definition created_map (w : World) : MapView :=
  {| _containerId := S (lastId w); _loaded := true;
     _lastCenter := Some view_center; _zoom := Some 10;
     _layers := {[ S (S (lastId w)) := length (layers w) ]};
     _layersMaxZoom := Some 19 |}.

Definition created_layer (w : World) : TileLayer :=
  {| _url := tile_template; options := tile_options;
     layer_leaflet_id := Some (S (S (lastId w)));
     _map := Some (length (maps w)); _tileZoom := Some 10 |}.

Definition mounted (el : Element) (cid : nat) : Element :=
  {| el_id := el_id el; el_leaflet_id := Some cid;
     el_children := el_children el
       ++ ["leaflet-pane leaflet-map-pane"; "leaflet-control-container"] |}.

Definition after_init (w : World) (i : nat) (el : Element) : World :=
  {| dom := <[i := mounted el (S (lastId w))]> (dom w);
     lastId := S (S (lastId w));
     maps := maps w ++ [created_map w];
     layers := layers w ++ [created_layer w];
     requests := requests w
       ++ (request_url 10
             <$> tiles_to_load (requests w) (created_map w) (created_layer w));
     storage := storage w |}.

Definition init_calls (w : World) : list Event :=
  [ Called (L_map "map");
    Called (setView (length (maps w)) view_center 10);
    Called (L_tileLayer tile_template tile_options);
    Called (addTo (length (layers w)) (length (maps w))) ].

Definition with_storage (w : World) (st : gmap string string) : World :=
  {| dom := dom w; lastId := lastId w; maps := maps w; layers := layers w;
     requests := requests w; storage := st |}.

(** The configuration the script asks for. *)
Definition script_config : MapConfig :=
  {| cfg_center := Some view_center; cfg_zoom := Some 10;
     cfg_layers := [(tile_template, tile_options)] |}.

(** A view change leaves the page, the stamp counter and the storage
    alone, keeps the number of maps, keeps the layers configured, and adds
    tile requests only. *)
Definition same_page (w w' : World) : Prop :=
  dom w' = dom w /\ lastId w' = lastId w /\ storage w' = storage w
  /\ length (maps w') = length (maps w)
  /\ length (layers w') = length (layers w)
  /\ Forall configured (layers w')
  /\ exists us, requests w' = requests w ++ us /\ Forall is_tile_request us.

(** What holds of the page state in every reachable state: every tile
    layer is one the script configured, every request is a tile request,
    and either no map exists and no element is stamped, or one map exists
    and the mount element carries its stamp. *)
Definition page_inv (w : World) : Prop :=
  Forall configured (layers w)
  /\ Forall is_tile_request (requests w)
  /\ ((maps w = [] /\ Forall (fun e => el_leaflet_id e = None) (dom w))
      \/ (exists mv i el, maps w = [mv]
            /\ getElementById "map" (dom w) = Some (i, el)
            /\ truthy (el_leaflet_id el) = true)).

Definition registered (ls : list (string * Script unit)) : Prop :=
  Forall (fun l => l = ("DOMContentLoaded", init)) ls.

Definition browser_inv (b : Browser) : Prop :=
  registered (listeners b) /\ page_inv (page b).

(** Before the page-ready event: nothing has been built or called. *)
Definition untouched (b : Browser) : Prop :=
  registered (listeners b)
  /\ maps (page b) = [] /\ layers (page b) = [] /\ calls b = [].

(** The page shows the map of the script: one map with a view, its zoom
    within the layer's range, and on it the one tile layer, whose tile
    zoom is the map's zoom. *)
Definition viewing (w : World) : Prop :=
  exists mv ly id c z,
    maps w = [mv] /\ layers w = [ly]
    /\ _loaded mv = true /\ _layers mv = {[ id := 0%nat ]}
    /\ _layersMaxZoom mv = Some 19
    /\ _lastCenter mv = Some c /\ _zoom mv = Some z /\ 0 <= z <= 19
    /\ _map ly = Some 0%nat /\ _tileZoom ly = Some z
    /\ _url ly = tile_template /\ options ly = tile_options.

(** The states a loaded page can be in: nothing built yet, or the map of
    the script on view. *)
Definition page_shape (w : World) : Prop :=
  (maps w = [] /\ layers w = []) \/ viewing w.

(** What a gesture on the map of the page does, when it ends on [center]
    at zoom [zoom]: the map has that view, the layer's tile zoom is that
    zoom, and the requests added are, for each tile the layer has yet to
    fetch for the new view and in that order, the URL [getTileUrl] gives,
    which is the documented URL at that zoom. *)
Definition gesture_requests (b b' : Browser) (center : LatLng) (zoom : Z) : Prop :=
  exists mv' ly',
    maps (page b') = [mv'] /\ layers (page b') = [ly']
    /\ _lastCenter mv' = Some center /\ _zoom mv' = Some zoom
    /\ _tileZoom ly' = Some zoom
    /\ Forall (fun c => getTileUrl ly' c = Ok (request_url zoom c))
         (tiles_to_load (requests (page b)) mv' ly')
    /\ requests (page b')
       = requests (page b)
         ++ (request_url zoom <$> tiles_to_load (requests (page b)) mv' ly').

(** The zoom of a map lies within what its tile layer serves. *)
Definition zoom_in_range (mv : MapView) : Prop :=
  _layersMaxZoom mv = Some 19 /\ exists z, _zoom mv = Some z /\ 0 <= z <= 19.

(** The two errors of [L.map]'s container check. *)
Definition container_error (e : string) : Prop :=
  e = "Map container not found." \/ e = "Map container is already initialized.".

(** A page state on which the initializer is refused and changes nothing. *)
Definition settled (w : World) : Prop :=
  exists e, run init w = (Throw e, w, [Called (L_map "map")]).

(** Reads fields of page states and objects that are written out. *)
Ltac world_simpl :=
  cbn [dom lastId maps layers requests storage
       with_lastId with_maps with_layers with_requests
       _containerId _loaded _lastCenter _zoom _layers _layersMaxZoom
       _url options layer_leaflet_id _map _tileZoom attach stamped at_zoom
       attribution subdomains maxZoom negb].

(** ** Facts about the page and about tile URLs *)

Lemma getElementById_Some id d i e :
  getElementById id d = Some (i, e) -> d !! i = Some e /\ el_id e = id.
Proof.
  revert i. induction d as [|a d IH]; intros i H; simpl in H; [discriminate|].
  destruct (String.eqb (el_id a) id) eqn:E.
  - injection H as <- <-. split; [reflexivity|]. by apply String.eqb_eq.
  - destruct (getElementById id d) as [[j e']|]; [|discriminate].
    injection H as <- <-. by apply IH.
Qed.

Lemma getElementById_None id d :
  getElementById id d = None <-> id ∉ el_id <$> d.
Proof.
  induction d as [|a d IH]; simpl.
  - split; [intros _; apply not_elem_of_nil | done].
  - destruct (String.eqb (el_id a) id) eqn:E.
    + apply String.eqb_eq in E. split; [discriminate|].
      intros H. exfalso. apply H. rewrite E. apply list_elem_of_here.
    + apply String.eqb_neq in E. rewrite not_elem_of_cons.
      destruct (getElementById id d) as [[j e']|].
      * split; [discriminate|]. intros [_ H]. by apply IH in H.
      * split; [|done]. intros _. split; [congruence|]. by apply IH.
Qed.

Lemma getElementById_insert id d i e e' :
  getElementById id d = Some (i, e) -> el_id e' = id ->
  getElementById id (<[i := e']> d) = Some (i, e').
Proof.
  revert i. induction d as [|a d IH]; intros i H Hid; simpl in H; [discriminate|].
  destruct (String.eqb (el_id a) id) eqn:E.
  - injection H as <- <-. simpl. rewrite Hid, String.eqb_refl. reflexivity.
  - destruct (getElementById id d) as [[j e'']|] eqn:G; [|discriminate].
    injection H as <- <-. simpl. rewrite E. by rewrite (IH j).
Qed.

Lemma getElementById_present id (p : list Node) :
  has_element id p ->
  exists i n, getElementById id (element_of <$> p) = Some (i, element_of n).
Proof.
  unfold has_element. induction p as [|a p IH]; intros H.
  - by apply elem_of_nil in H.
  - rewrite fmap_cons. cbn [getElementById].
    change (el_id (element_of a)) with (node_id a).
    destruct (String.eqb (node_id a) id) eqn:E.
    + by exists 0%nat, a.
    + apply String.eqb_neq in E. rewrite fmap_cons in H.
      apply elem_of_cons in H as [H|H]; [congruence|].
      destruct (IH H) as (i & n & ->). by exists (S i), n.
Qed.

Lemma getElementById_absent id (p : list Node) :
  ~ has_element id p -> getElementById id (element_of <$> p) = None.
Proof.
  intros H. apply getElementById_None. rewrite <- list_fmap_compose.
  exact H.
Qed.

Lemma subdomain_of_abcd c : subdomain_of c ∈ ["a"; "b"; "c"; "d"].
Proof.
  unfold subdomain_of. repeat case_match; set_solver.
Qed.

(** For a layer the script configured, [getTileUrl] is the documented URL
    at the layer's tile zoom. *)
Lemma getTileUrl_at_zoom ly c z :
  configured ly -> _tileZoom ly = Some z ->
  getTileUrl ly c = Ok (request_url z c).
Proof.
  intros [Hu Hs] Hz.
  unfold getTileUrl, tile_data, _getSubdomain, request_url, subdomain_of,
    resolution, tile_url.
  rewrite Hu, Hs, Hz. simpl String.length. change (Z.of_nat 4) with 4.
  pose proof (Z.mod_pos_bound (Z.abs (tile_x c + tile_y c)) 4 eq_refl) as Hr.
  revert Hr. generalize (Z.abs (tile_x c + tile_y c) `mod` 4). intros k Hr.
  generalize (pretty (tile_x c)) (pretty (tile_y c)) (pretty z)
    (pretty (2 ^ z - 1 - tile_y c))
    (attribution (options ly)) (pretty (maxZoom (options ly))).
  intros sx sy sz sny sattr smax.
  assert (Hk : k = 0 \/ k = 1 \/ k = 2 \/ k = 3) by lia.
  clear Hr.
  destruct Hk as [-> | [-> | [-> | ->]]];
    destruct retina, (_map ly); vm_compute; reflexivity.
Qed.

Lemma stamp_falsy o n : truthy o = false -> stamp o n = (S n, S n).
Proof. destruct o as [[|k]|]; simpl; congruence. Qed.

Lemma is_tile_request_url z c : is_tile_request (request_url z c).
Proof.
  exists (subdomain_of c), z, (tile_x c), (tile_y c).
  split; [apply subdomain_of_abcd | reflexivity].
Qed.

(** The tiles of a configured layer are all requested, each under its
    documented URL at the layer's tile zoom. *)
Lemma request_tiles_configured ly cs w z :
  configured ly -> _tileZoom ly = Some z ->
  request_tiles ly cs w
  = (Ok tt, with_requests w (requests w ++ (request_url z <$> cs)))
  /\ Forall is_tile_request (request_url z <$> cs).
Proof.
  intros Hc Hz. revert w. induction cs as [|c cs IH]; intros w.
  - simpl. rewrite app_nil_r. split; [by destruct w | constructor].
  - cbn [request_tiles fmap list_fmap].
    rewrite (getTileUrl_at_zoom ly c z Hc Hz).
    destruct (IH (with_requests w (requests w ++ [request_url z c]))) as [-> HF].
    split.
    + unfold with_requests. simpl. by rewrite <- app_assoc.
    + constructor; [apply is_tile_request_url | exact HF].
Qed.

Lemma created_layer_configured w : configured (created_layer w).
Proof. split; reflexivity. Qed.

Lemma run_init_missing w :
  getElementById "map" (dom w) = None ->
  run init w = (Throw "Map container not found.", w, [Called (L_map "map")]).
Proof.
  intros H. unfold run, init. cbn [run_with handle]. unfold do_map.
  by rewrite H.
Qed.

Lemma run_init_taken w i el :
  getElementById "map" (dom w) = Some (i, el) ->
  truthy (el_leaflet_id el) = true ->
  run init w = (Throw "Map container is already initialized.", w, [Called (L_map "map")]).
Proof.
  intros H Ht. unfold run, init. cbn [run_with handle]. unfold do_map.
  by rewrite H, Ht.
Qed.

Lemma lookup_last_snoc {A} (l : list A) (x : A) : (l ++ [x]) !! length l = Some x.
Proof. by apply list_lookup_middle. Qed.

Lemma insert_last_snoc {A} (l : list A) (x y : A) : <[length l := x]> (l ++ [y]) = l ++ [x].
Proof.
  rewrite insert_app_r_alt by lia. by rewrite Nat.sub_diag.
Qed.

Lemma layers_max_zoom_singleton heap id l ly :
  heap !! l = Some ly ->
  layers_max_zoom heap {[ id := l ]} = Some (maxZoom (options ly)).
Proof.
  intros H. unfold layers_max_zoom. rewrite map_to_list_singleton.
  cbn [fmap list_fmap snd foldr]. by rewrite H.
Qed.

Lemma run_init_created w i el :
  getElementById "map" (dom w) = Some (i, el) ->
  truthy (el_leaflet_id el) = false ->
  run init w = (Ok tt, after_init w i el, init_calls w).
Proof.
  intros H Ht. unfold run, init. cbn [run_with handle]. unfold do_map.
  rewrite H, Ht, (stamp_falsy _ _ Ht).
  unfold do_setView, view_reset, moved. world_simpl.
  rewrite lookup_last_snoc, insert_last_snoc. world_simpl.
  rewrite map_to_list_empty.
  cbn [fmap list_fmap show_layers].
  change (_limitZoom _ 10) with 10.
  unfold do_tileLayer. world_simpl.
  unfold do_addTo. world_simpl.
  rewrite !lookup_last_snoc. world_simpl. cbn [stamp].
  rewrite lookup_empty, insert_empty. world_simpl.
  rewrite !insert_last_snoc.
  rewrite (layers_max_zoom_singleton _ _ _ _ (lookup_last_snoc _ _)). world_simpl.
  cbn [Z.eqb Z.leb Z.compare Pos.compare Pos.compare_cont orb].
  unfold show_layer. world_simpl. rewrite !lookup_last_snoc, insert_last_snoc.
  world_simpl.
  unfold tile_zoom_for, at_zoom, attach, stamped, with_layers, with_maps,
    with_lastId.
  world_simpl. cbn [Z.ltb Z.compare Pos.compare Pos.compare_cont orb].
  match goal with
  | |- context [request_tiles ?ly ?cs ?w0] =>
      destruct (request_tiles_configured ly cs w0 10
                  (created_layer_configured w) eq_refl) as [-> _]
  end.
  reflexivity.
Qed.

Lemma layers_on_after_init w i el :
  layers_on (after_init w i el) (created_map w) = [created_layer w].
Proof.
  unfold layers_on. cbn [created_map _layers after_init layers].
  rewrite map_to_list_singleton. cbn [fmap list_fmap snd omap list_omap].
  by rewrite lookup_last_snoc.
Qed.

Lemma outcome_created w i el :
  getElementById "map" (dom w) = Some (i, el) ->
  truthy (el_leaflet_id el) = false ->
  outcome w = Ok [script_config].
Proof.
  intros H Ht. unfold outcome. rewrite (run_init_created w i el H Ht).
  cbn [after_init maps]. rewrite drop_app_length. cbn [fmap list_fmap].
  unfold config_of.
  change (maps w ++ [created_map w]) with (maps (after_init w i el)).
  fold (after_init w i el). by rewrite layers_on_after_init.
Qed.

Lemma outcome_taken w i el :
  getElementById "map" (dom w) = Some (i, el) ->
  truthy (el_leaflet_id el) = true ->
  outcome w = Throw "Map container is already initialized.".
Proof. intros H Ht. unfold outcome. by rewrite (run_init_taken w i el H Ht). Qed.

Lemma outcome_missing w :
  getElementById "map" (dom w) = None ->
  outcome w = Throw "Map container not found.".
Proof. intros H. unfold outcome. by rewrite (run_init_missing w H). Qed.

(** A script stops at the first call that throws, whatever the library. *)
Lemma run_with_first_throws {A X : Type} (h : Handler) (c : Call X)
    (k : X -> Script A) w e w1 :
  h X c w = (Throw e, w1) ->
  run_with h (Do c k) w = (Throw e, w1, [Called c]).
Proof. intros H. cbn [run_with]. by rewrite H. Qed.

Lemma do_map_throws_unchanged id w e w1 :
  do_map id w = (Throw e, w1) -> w1 = w.
Proof.
  unfold do_map. destruct (getElementById id (dom w)) as [[i el]|].
  - destruct (truthy (el_leaflet_id el)).
    + by intros [= _ <-].
    + destruct (stamp (el_leaflet_id el) (lastId w)). discriminate.
  - by intros [= _ <-].
Qed.

(** X1: whatever the library answers, the initializer calls [L.map]
    exactly once, with the container id [map]; it sets at most one view
    and builds at most one layer, and what it sets and builds are the
    literals of the script. *)
Lemma init_calls_any_library (h : Handler) (w : World) :
  containers_asked (run_with h init w).2 = ["map"]
  /\ maps_requested (run_with h init w).2 = 1%nat
  /\ views_set (run_with h init w).2 `prefix_of` [(view_center, 10)]
  /\ layers_made (run_with h init w).2 `prefix_of` [(tile_template, tile_options)].
Proof.
  unfold init. cbn [run_with].
  destruct (h _ (L_map "map") w) as [[m|e] w1];
    [|repeat split; cbn; solve [reflexivity | apply prefix_nil]].
  destruct (h _ (setView m _ 10) w1) as [[m'|e] w2];
    [|repeat split; cbn; solve [reflexivity | apply prefix_nil]].
  destruct (h _ (L_tileLayer _ _) w2) as [[l|e] w3];
    [|repeat split; cbn; solve [reflexivity | apply prefix_nil]].
  destruct (h _ (addTo l m') w3) as [[l'|e] w4];
    repeat split; cbn; solve [reflexivity | apply prefix_nil].
Qed.

(** ** The initializer on a page *)

Lemma run_init_on_page (p : list Node) (st : gmap string string) :
  has_element "map" p ->
  exists i n,
    run init (page (load p st))
    = (Ok tt, after_init (page (load p st)) i (element_of n), init_calls (page (load p st))).
Proof.
  intros Hp. destruct (getElementById_present "map" p Hp) as (i & n & Hg).
  exists i, n. by apply run_init_created.
Qed.

(** C1: on a page that contains the mount element [map], invoking the
    initializer succeeds and leaves exactly one map view; its center is
    the coordinate (32.7079, -96.9209) and its zoom level is 10.  The
    initializer asked for a map once. *)
Theorem init_creates_one_centered_view (p : list Node) (st : gmap string string) :
  has_element "map" p ->
  exists w' t mv,
    run init (page (load p st)) = (Ok tt, w', t)
    /\ maps w' = [mv]
    /\ maps_requested t = 1%nat
    /\ _lastCenter mv = Some {| lat := 32.7079; lng := -96.9209 |}
    /\ _zoom mv = Some 10.
Proof.
  intros Hp. destruct (run_init_on_page p st Hp) as (i & n & Hr).
  eexists _, _, _. split; [exact Hr|]. repeat split; reflexivity.
Qed.

(** C2: exactly one tile layer is attached to the created map view, and
    its configuration is the one written in the script: the URL template,
    the subdomains [abcd], the attribution markup crediting OpenStreetMap
    and CARTO, and the maximum zoom 19. *)
Theorem init_attaches_one_tile_layer (p : list Node) (st : gmap string string) :
  has_element "map" p ->
  exists w' t mv ly,
    run init (page (load p st)) = (Ok tt, w', t)
    /\ maps w' = [mv]
    /\ layers_on w' mv = [ly]
    /\ layers w' = [ly]
    /\ _map ly = Some 0%nat
    /\ _url ly = "https://{s}.basemaps.cartocdn.com/dark_all/{z}/{x}/{y}{r}.png"
    /\ subdomains (options ly) = "abcd"
    /\ attribution (options ly)
       = "&copy; <a href=" +:+ dq +:+ "https://www.openstreetmap.org/" +:+ dq
         +:+ ">OpenStreetMap</a> contributors &copy; <a href=" +:+ dq
         +:+ "https://carto.com/" +:+ dq +:+ ">CARTO</a>"
    /\ maxZoom (options ly) = 19.
Proof.
  intros Hp. destruct (run_init_on_page p st Hp) as (i & n & Hr).
  eexists _, _, _, _. split; [exact Hr|].
  split; [reflexivity|]. split; [apply layers_on_after_init|].
  repeat split; reflexivity.
Qed.

(** C3: the literals of the script are a valid configuration: the center
    (32.7079, -96.9209) has its latitude in [-90, 90] and its longitude in
    [-180, 180], and the initial zoom 10 is not negative and not above the
    layer's [maxZoom] of 19. *)
Theorem static_configuration_valid :
  exists c z u o,
    views_set (calls_of init) = [(c, z)]
    /\ layers_made (calls_of init) = [(u, o)]
    /\ c = {| lat := 32.7079; lng := -96.9209 |}
    /\ z = 10
    /\ maxZoom o = 19
    /\ valid_latlng c = true
    /\ 0 <= z <= maxZoom o.
Proof.
  eexists _, _, _, _. split; [reflexivity|]. split; [reflexivity|].
  split; [reflexivity|]. split; [reflexivity|]. split; [reflexivity|].
  split; [reflexivity|]. cbn. lia.
Qed.

(** C6: on a page without the mount element the initializer creates no
    map view and does not end quietly: [L.map] throws, nothing in the
    script catches the exception, so it leaves the listener and is
    reported when the page-ready event is dispatched. *)
Theorem missing_mount_fails_visibly (p : list Node) (st : gmap string string) :
  ~ has_element "map" p ->
  run init (page (load p st))
  = (Throw "Map container not found.", page (load p st), [Called (L_map "map")])
  /\ maps (page (exec (load p st) [RunScript; Fire "DOMContentLoaded"])) = []
  /\ console (exec (load p st) [RunScript; Fire "DOMContentLoaded"])
     = ["Map container not found."].
Proof.
  intros Hp. pose proof (getElementById_absent "map" p Hp) as Hg.
  assert (Hr : run init (page (load p st))
    = (Throw "Map container not found.", page (load p st), [Called (L_map "map")]))
    by (by apply run_init_missing).
  split; [exact Hr|].
  unfold exec. cbn [fold_left step main addEventListener load listeners app
    dispatchEvent invoke_all page console calls String.eqb Ascii.eqb Bool.eqb].
  cbn [load page] in Hr. rewrite Hr. by split.
Qed.

(** C9: whatever the page state, a run of the initializer leaves the
    persisted storage as it was and does not depend on it; every element
    other than the mount element is unchanged; the mount element keeps its
    id and its earlier children and only gains nodes; the Leaflet objects
    that existed are untouched; and what is added to the network log are
    tile image requests only. *)
Theorem init_frame (w w' : World) (r : Result unit) (t : list Event) :
  run init w = (r, w', t) ->
  storage w' = storage w
  /\ (forall st, run init (with_storage w st) = (r, with_storage w' st, t))
  /\ length (dom w') = length (dom w)
  /\ (forall j, fst <$> getElementById "map" (dom w) <> Some j ->
        dom w' !! j = dom w !! j)
  /\ (forall i el, getElementById "map" (dom w) = Some (i, el) ->
        exists el', dom w' !! i = Some el' /\ el_id el' = "map"
          /\ el_children el `prefix_of` el_children el')
  /\ maps w `prefix_of` maps w'
  /\ layers w `prefix_of` layers w'
  /\ exists us, requests w' = requests w ++ us /\ Forall is_tile_request us.
Proof.
  intros Hr.
  destruct (getElementById "map" (dom w)) as [[i el]|] eqn:Hg.
  - destruct (getElementById_Some _ _ _ _ Hg) as [Hi Hid].
    destruct (truthy (el_leaflet_id el)) eqn:Ht.
    + rewrite (run_init_taken w i el Hg Ht) in Hr. injection Hr as <- <- <-.
      split; [reflexivity|]. split.
      { intros st. by apply (run_init_taken (with_storage w st) i el). }
      split; [reflexivity|]. split; [reflexivity|]. split.
      { intros i' el0 [= <- <-]. exists el. by repeat split. }
      split; [reflexivity|]. split; [reflexivity|].
      exists []. by rewrite app_nil_r.
    + rewrite (run_init_created w i el Hg Ht) in Hr. injection Hr as <- <- <-.
      split; [reflexivity|]. split.
      { intros st. by apply (run_init_created (with_storage w st) i el). }
      split; [apply length_insert|]. split.
      { intros j Hj. apply list_lookup_insert_ne. cbn in Hj. congruence. }
      split.
      { intros i' el0 [= <- <-]. exists (mounted el (S (lastId w))).
        split; [|split].
        - apply list_lookup_insert_eq. by eapply lookup_lt_Some.
        - exact Hid.
        - by apply prefix_app_r. }
      split; [by apply prefix_app_r|]. split; [by apply prefix_app_r|].
      eexists. split; [reflexivity|].
      exact (proj2 (request_tiles_configured _ _ w 10 (created_layer_configured w) eq_refl)).
  - rewrite (run_init_missing w Hg) in Hr. injection Hr as <- <- <-.
    split; [reflexivity|]. split.
    { intros st. by apply (run_init_missing (with_storage w st)). }
    split; [reflexivity|]. split; [reflexivity|]. split; [discriminate|].
    split; [reflexivity|]. split; [reflexivity|].
    exists []. by rewrite app_nil_r.
Qed.

(** C10: when the creation of the map view fails, the initializer ends
    with that exception after the single call to [L.map]: the tile layer
    expression is not evaluated, nothing is added to any map, and the page
    state is the one the initializer started from. *)
Theorem init_stops_when_map_fails (w w1 : World) (e : string) :
  handle (L_map "map") w = (Throw e, w1) ->
  run init w = (Throw e, w, [Called (L_map "map")]) /\ w1 = w.
Proof.
  intros H. pose proof (do_map_throws_unchanged "map" w e w1 H) as ->.
  split; [|reflexivity].
  unfold run, init. by apply run_with_first_throws.
Qed.

(** ** View changes and reachable states *)

Lemma same_page_refl w : Forall configured (layers w) -> same_page w w.
Proof.
  intros H. repeat split; try done. exists []. by rewrite app_nil_r.
Qed.

Lemma same_page_trans w1 w2 w3 :
  same_page w1 w2 -> same_page w2 w3 -> same_page w1 w3.
Proof.
  intros (Hd & Hl & Hs & Hm & Hy & _ & us & Hu & HF)
         (Hd' & Hl' & Hs' & Hm' & Hy' & Hc' & us' & Hu' & HF').
  repeat split; try congruence.
  exists (us ++ us'). split.
  - rewrite Hu', Hu. by rewrite app_assoc.
  - by apply Forall_app.
Qed.

Lemma show_layer_same_page m l w r w' :
  Forall configured (layers w) ->
  show_layer m l w = (r, w') -> same_page w w'.
Proof.
  intros Hc. unfold show_layer.
  destruct (maps w !! m) as [mv|]; [|intros [= _ <-]; by apply same_page_refl].
  destruct (layers w !! l) as [ly|] eqn:Hl;
    [|intros [= _ <-]; by apply same_page_refl].
  cbv zeta. set (ly' := at_zoom (attach ly m) (tile_zoom_for ly mv)).
  assert (Hly : configured ly')
    by exact (proj1 (Forall_lookup _ _) Hc l ly Hl).
  destruct (_tileZoom ly') as [tz|] eqn:Hz.
  - match goal with
    | |- context [request_tiles ?a ?cs ?w0] =>
        destruct (request_tiles_configured a cs w0 tz Hly Hz) as [-> HF]
    end.
    intros [= _ <-]. unfold same_page. world_simpl.
    repeat split; try done.
    + apply length_insert.
    + by apply Forall_insert.
    + by eexists.
  - intros [= _ <-]. unfold same_page. world_simpl.
    repeat split; try done.
    + apply length_insert.
    + by apply Forall_insert.
    + exists []. by rewrite app_nil_r.
Qed.

Lemma show_layers_same_page m first ls w r w' :
  Forall configured (layers w) ->
  show_layers m first ls w = (r, w') -> same_page w w'.
Proof.
  revert w. induction ls as [|l ls IH]; intros w Hc; cbn [show_layers].
  - intros [= _ <-]. by apply same_page_refl.
  - destruct (layers w !! l) as [ly|]; [|by apply IH].
    destruct (first || bool_decide (_map ly = Some m)); [|by apply IH].
    destruct (show_layer m l w) as [[u|e] w1] eqn:Hs.
    + pose proof (show_layer_same_page _ _ _ _ _ Hc Hs) as H1.
      intros H2. eapply same_page_trans; [exact H1|].
      eapply IH; [|exact H2]. apply H1.
    + intros [= _ <-]. by eapply show_layer_same_page.
Qed.

Lemma view_reset_same_page m c z w r w' :
  Forall configured (layers w) ->
  view_reset m c z w = (r, w') -> same_page w w'.
Proof.
  intros Hc. unfold view_reset.
  destruct (maps w !! m) as [mv|]; [|intros [= _ <-]; by apply same_page_refl].
  intros H. apply show_layers_same_page in H; [|exact Hc].
  destruct H as (Hd & Hl & Hs & Hm & Hy & Hc' & Hu).
  revert Hm. world_simpl. rewrite length_insert. intros Hm.
  by repeat split.
Qed.

Lemma page_inv_load p st : page_inv (page (load p st)).
Proof.
  split; [constructor|]. split; [constructor|]. left. split; [reflexivity|].
  cbn [load page dom]. apply Forall_fmap, Forall_forall. by intros n _.
Qed.

Lemma page_inv_same_page w w' : page_inv w -> same_page w w' -> page_inv w'.
Proof.
  intros (Hc & Hr & Hm) (Hd & _ & _ & Hl & _ & Hc' & us & Hu & HF).
  split; [exact Hc'|]. split; [rewrite Hu; by apply Forall_app|].
  rewrite Hd. destruct Hm as [[Hm Hs]|(mv & i & el & Hm & Hg & Ht)].
  - left. split; [|exact Hs]. rewrite Hm in Hl. by apply nil_length_inv.
  - right. rewrite Hm in Hl. cbn in Hl.
    destruct (maps w') as [|mv' [|? ?]]; try discriminate.
    by exists mv', i, el.
Qed.

Lemma page_inv_run_init w r w' t :
  page_inv w -> run init w = (r, w', t) -> page_inv w'.
Proof.
  intros (Hc & Hr & Hm) Hrun.
  assert (Hcase : exists o, getElementById "map" (dom w) = o) by eauto.
  destruct Hcase as [[[i el]|] Hg].
  - destruct (truthy (el_leaflet_id el)) eqn:Ht.
    + rewrite (run_init_taken w i el Hg Ht) in Hrun. injection Hrun as <- <- <-.
      by repeat split.
    + rewrite (run_init_created w i el Hg Ht) in Hrun. injection Hrun as <- <- <-.
      destruct Hm as [[Hm Hs]|(mv & i' & el' & Hm & Hg' & Ht')];
        [|rewrite Hg in Hg'; injection Hg' as <- <-; congruence].
      split; [|split].
      * apply Forall_app. split; [exact Hc|].
        constructor; [apply created_layer_configured | constructor].
      * apply Forall_app. split; [exact Hr|].
        exact (proj2 (request_tiles_configured _ _ w 10 (created_layer_configured w) eq_refl)).
      * right. exists (created_map w), i, (mounted el (S (lastId w))).
        split; [cbn [after_init maps]; by rewrite Hm|]. split; [|reflexivity].
        apply (getElementById_insert "map" (dom w) i el); [exact Hg|].
        by destruct (getElementById_Some _ _ _ _ Hg).
  - rewrite (run_init_missing w Hg) in Hrun. injection Hrun as <- <- <-.
    by repeat split.
Qed.

Lemma browser_inv_invoke_all ls type b :
  registered ls -> browser_inv b -> browser_inv (invoke_all ls type b).
Proof.
  intros Hls. revert b. induction Hls as [|l ls -> _ IH]; intros b Hb; [exact Hb|].
  cbn [invoke_all]. destruct (String.eqb "DOMContentLoaded" type); [|by apply IH].
  destruct (run init (page b)) as [[r w] tr] eqn:Hr. apply IH.
  destruct Hb as [Hl Hp]. split; [exact Hl|].
  by eapply page_inv_run_init.
Qed.

Lemma browser_inv_interact m target b :
  browser_inv b -> browser_inv (interact m target b).
Proof.
  intros [Hl Hp]. unfold interact.
  destruct (maps (page b) !! m) as [mv|]; [|by split].
  destruct (if _loaded mv then target mv else None) as [[c z]|]; [|by split].
  destruct (view_reset m c z (page b)) as [r w] eqn:Hv.
  split; [exact Hl|]. cbn [page]. eapply page_inv_same_page; [exact Hp|].
  eapply view_reset_same_page; [apply Hp | exact Hv].
Qed.

Lemma browser_inv_step b a : browser_inv b -> browser_inv (step b a).
Proof.
  intros Hb. destruct a as [|type|m c|m z|m c z]; cbn [step].
  - destruct Hb as [Hl Hp]. split; [|exact Hp].
    apply Forall_app. split; [exact Hl|]. by constructor.
  - apply browser_inv_invoke_all; [apply Hb | exact Hb].
  - by apply browser_inv_interact.
  - by apply browser_inv_interact.
  - by apply browser_inv_interact.
Qed.

Lemma browser_inv_exec b acts : browser_inv b -> browser_inv (exec b acts).
Proof.
  revert b. induction acts as [|a acts IH]; intros b Hb; [exact Hb|].
  apply IH. by apply browser_inv_step.
Qed.

Lemma browser_inv_load p st : browser_inv (load p st).
Proof. split; [constructor | apply page_inv_load]. Qed.

Lemma invoke_all_other ls type b :
  registered ls -> String.eqb "DOMContentLoaded" type = false ->
  invoke_all ls type b = b.
Proof.
  intros Hls Ht. induction Hls as [|l ls -> _ IH]; [reflexivity|].
  cbn [invoke_all]. by rewrite Ht.
Qed.

Lemma untouched_step b a :
  is_page_ready a = false -> untouched b -> untouched (step b a).
Proof.
  intros Ha (Hl & Hm & Hy & Hc). destruct a as [|type|m c|m z|m c z]; cbn [step].
  - repeat split; try done. apply Forall_app. split; [exact Hl|]. by constructor.
  - cbn in Ha. unfold dispatchEvent. rewrite invoke_all_other; [by repeat split|exact Hl|].
    by rewrite String.eqb_sym.
  - unfold interact. rewrite Hm. by repeat split.
  - unfold interact. rewrite Hm. by repeat split.
  - unfold interact. rewrite Hm. by repeat split.
Qed.

Lemma untouched_exec b acts :
  existsb is_page_ready acts = false -> untouched b -> untouched (exec b acts).
Proof.
  revert b. induction acts as [|a acts IH]; intros b Ha Hb; [exact Hb|].
  cbn in Ha. apply orb_false_iff in Ha as [Ha1 Ha2].
  apply IH; [exact Ha2|]. by apply untouched_step.
Qed.

Lemma page_inv_at_most_one_map w : page_inv w -> (length (maps w) <= 1)%nat.
Proof.
  intros (_ & _ & [[-> _]|(mv & i & el & -> & _)]); cbn; lia.
Qed.

Lemma run_init_requests_map_once w r w' t :
  run init w = (r, w', t) -> maps_requested t = 1%nat.
Proof.
  intros Hr. destruct (getElementById "map" (dom w)) as [[i el]|] eqn:Hg.
  - destruct (truthy (el_leaflet_id el)) eqn:Ht.
    + rewrite (run_init_taken w i el Hg Ht) in Hr. by injection Hr as <- <- <-.
    + rewrite (run_init_created w i el Hg Ht) in Hr. by injection Hr as <- <- <-.
  - rewrite (run_init_missing w Hg) in Hr. by injection Hr as <- <- <-.
Qed.

(** The page after the script file ran and the page-ready event fired. *)
Lemma page_ready_runs_init b :
  listeners b = [] ->
  forall r w t, run init (page b) = (r, w, t) ->
  exec b [RunScript; Fire "DOMContentLoaded"]
  = {| page := w; listeners := [("DOMContentLoaded", init)];
       console := match r with
                  | Ok _ => console b
                  | Throw e => console b ++ [e]
                  end;
       calls := calls b ++ t |}.
Proof.
  destruct b as [w0 ls cs cl]. cbn [listeners page console calls].
  intros -> r w t Hr. unfold exec. cbn [fold_left step].
  unfold main, addEventListener, dispatchEvent.
  cbn [listeners page console calls app invoke_all].
  rewrite String.eqb_refl, Hr. reflexivity.
Qed.

Lemma viewing_after_init w i el :
  maps w = [] -> layers w = [] -> viewing (after_init w i el).
Proof.
  intros Hm Hl. exists (created_map w), (created_layer w), (S (S (lastId w))).
  exists view_center, 10. cbn [after_init maps layers]. rewrite Hm, Hl.
  unfold created_map, created_layer. rewrite Hm, Hl.
  repeat split; try reflexivity; lia.
Qed.

Lemma limit_zoom_19 mv z :
  _layersMaxZoom mv = Some 19 ->
  _limitZoom mv z = Z.max 0 (Z.min 19 z) /\ 0 <= _limitZoom mv z <= 19.
Proof. intros H. unfold _limitZoom. rewrite H. lia. Qed.

(** A view reset of the map on view: the map takes the view, the layer its
    zoom, and the layer's requests are the documented URLs of the tiles it
    has yet to fetch. *)
Lemma view_reset_on_view w mv ly id c0 z0 c z :
  maps w = [mv] -> layers w = [ly] ->
  _loaded mv = true -> _layers mv = {[ id := 0%nat ]} ->
  _layersMaxZoom mv = Some 19 ->
  _lastCenter mv = Some c0 -> _zoom mv = Some z0 ->
  _map ly = Some 0%nat -> _url ly = tile_template -> options ly = tile_options ->
  view_reset 0%nat c z w
  = (Ok tt,
     {| dom := dom w; lastId := lastId w;
        maps := [moved mv c z];
        layers := [at_zoom ly (Some (_limitZoom mv z))];
        requests := requests w
          ++ (request_url (_limitZoom mv z)
                <$> tiles_to_load (requests w) (moved mv c z)
                      (at_zoom ly (Some (_limitZoom mv z))));
        storage := storage w |}).
Proof.
  intros Hm Hl Hld Hls Hmx Hc Hz Hmap Hu Ho.
  destruct (limit_zoom_19 mv z Hmx) as [_ Hr].
  destruct ly as [u o lid mp tz]. cbn in Hmap, Hu, Ho. subst mp u o.
  unfold view_reset. rewrite Hm. cbn [lookup list_lookup]. rewrite Hld, Hls.
  rewrite map_to_list_singleton. cbn [fmap list_fmap snd show_layers negb].
  world_simpl. rewrite Hl. cbn [lookup list_lookup]. world_simpl.
  rewrite bool_decide_eq_true_2 by reflexivity. cbn [orb].
  unfold show_layer. world_simpl. rewrite Hl. cbn [lookup list_lookup insert list_insert].
  unfold tile_zoom_for, at_zoom, attach, moved. world_simpl.
  change (maxZoom tile_options) with 19.
  replace ((19 <? _limitZoom mv z) || (_limitZoom mv z <? 0)) with false
    by (symmetry; apply orb_false_iff; split; [apply Z.ltb_ge | apply Z.ltb_ge]; lia).
  match goal with
  | |- context [request_tiles ?a ?cs ?w0] =>
      destruct (request_tiles_configured a cs w0 (_limitZoom mv z)) as [-> _];
        [by split | reflexivity | ]
  end.
  unfold with_layers, with_maps, with_requests. world_simpl.
  by rewrite Hls, Hmx.
Qed.

(** A gesture on the map on view, ending on [c] and asking for zoom [z]. *)
Lemma interact_on_view b target c z :
  viewing (page b) ->
  (forall mv, maps (page b) = [mv] -> target mv = Some (c, z)) ->
  gesture_requests b (interact 0%nat target b) c (Z.max 0 (Z.min 19 z))
  /\ viewing (page (interact 0%nat target b)).
Proof.
  intros (mv & ly & id & c0 & z0 & Hm & Hl & Hld & Hls & Hmx & Hc & Hz & Hr
            & Hmap & Htz & Hu & Ho) Ht.
  specialize (Ht mv Hm).
  pose proof (view_reset_on_view (page b) mv ly id c0 z0 c z
                Hm Hl Hld Hls Hmx Hc Hz Hmap Hu Ho) as Hv.
  destruct (limit_zoom_19 mv z Hmx) as [Hlim Hrange].
  unfold interact. rewrite Hm. cbn [lookup list_lookup]. rewrite Hld, Ht, Hv.
  cbn [page]. split.
  - exists (moved mv c z), (at_zoom ly (Some (_limitZoom mv z))).
    cbn [maps layers requests]. rewrite <- Hlim.
    split; [reflexivity|]. split; [reflexivity|]. split; [reflexivity|].
    split; [reflexivity|]. split; [reflexivity|]. split; [|reflexivity].
    apply Forall_forall. intros t _. apply getTileUrl_at_zoom; [|reflexivity].
    split; [exact Hu | cbn [options at_zoom]; by rewrite Ho].
  - exists (moved mv c z), (at_zoom ly (Some (_limitZoom mv z))), id, c,
      (_limitZoom mv z).
    cbn [maps layers]. repeat split; try assumption; try reflexivity; lia.
Qed.

Lemma page_shape_run_init w r w' t :
  page_inv w -> page_shape w -> run init w = (r, w', t) -> page_shape w'.
Proof.
  intros (_ & _ & Hm) Hs Hrun.
  assert (Hcase : exists o, getElementById "map" (dom w) = o) by eauto.
  destruct Hcase as [[[i el]|] Hg].
  - destruct (truthy (el_leaflet_id el)) eqn:Ht.
    + rewrite (run_init_taken w i el Hg Ht) in Hrun. by injection Hrun as _ <- _.
    + rewrite (run_init_created w i el Hg Ht) in Hrun. injection Hrun as _ <- _.
      destruct Hm as [[Hm _]|(mv & i' & el' & Hm & Hg' & Ht')];
        [|rewrite Hg in Hg'; injection Hg' as <- <-; congruence].
      destruct Hs as [[_ Hl]|(mv & ly & ? & ? & ? & Hm' & _)]; [|congruence].
      right. by apply viewing_after_init.
  - rewrite (run_init_missing w Hg) in Hrun. by injection Hrun as _ <- _.
Qed.

Lemma page_shape_invoke_all ls type b :
  registered ls -> page_inv (page b) -> page_shape (page b) ->
  page_shape (page (invoke_all ls type b)).
Proof.
  intros Hls. revert b. induction Hls as [|l ls -> _ IH]; intros b Hi Hs; [exact Hs|].
  cbn [invoke_all]. destruct (String.eqb "DOMContentLoaded" type); [|by apply IH].
  destruct (run init (page b)) as [[r w] tr] eqn:Hr. apply IH; cbn [page].
  - by eapply page_inv_run_init.
  - by eapply page_shape_run_init.
Qed.

Lemma viewing_interact m target b :
  viewing (page b) -> viewing (page (interact m target b)).
Proof.
  intros Hv. destruct m as [|m].
  - destruct Hv as (mv & Hv').
    destruct (target mv) as [[c z]|] eqn:Ht.
    + eapply (interact_on_view b target c z); [by exists mv|].
      destruct Hv' as (? & ? & ? & ? & Hm & _). intros mv' Hm'.
      rewrite Hm in Hm'. by injection Hm' as <-.
    + destruct Hv' as (ly & id & c & z & Hm & Hrest).
      unfold interact. rewrite Hm. cbn [lookup list_lookup].
      rewrite (proj1 (proj2 Hrest)), Ht. by exists mv, ly, id, c, z.
  - destruct Hv as (mv & ly & id & c & z & Hm & Hrest).
    unfold interact. rewrite Hm. cbn [lookup list_lookup].
    by exists mv, ly, id, c, z.
Qed.

Lemma page_shape_interact m target b :
  page_shape (page b) -> page_shape (page (interact m target b)).
Proof.
  intros [[Hm Hl]|Hv].
  - unfold interact. rewrite Hm. by left.
  - right. by apply viewing_interact.
Qed.

Lemma page_shape_exec b acts :
  browser_inv b -> page_shape (page b) -> page_shape (page (exec b acts)).
Proof.
  revert b. induction acts as [|a acts IH]; intros b Hb Hs; [exact Hs|].
  apply IH; [by apply browser_inv_step|].
  destruct a as [|type|m c|m z|m c z]; cbn [step].
  - exact Hs.
  - apply page_shape_invoke_all; [apply Hb | apply Hb | exact Hs].
  - by apply page_shape_interact.
  - by apply page_shape_interact.
  - by apply page_shape_interact.
Qed.

Lemma page_shape_load p st acts : page_shape (page (exec (load p st) acts)).
Proof. apply page_shape_exec; [apply browser_inv_load | by left]. Qed.

(** Once the map is on view it stays: the initializer is refused from
    then on. *)
Lemma viewing_run_init w r w' t :
  page_inv w -> viewing w -> run init w = (r, w', t) -> w' = w.
Proof.
  intros (_ & _ & Hm) (mv & ly & ? & ? & ? & Hmw & _) Hrun.
  assert (Hcase : exists o, getElementById "map" (dom w) = o) by eauto.
  destruct Hcase as [[[i el]|] Hg].
  - destruct (truthy (el_leaflet_id el)) eqn:Ht.
    + rewrite (run_init_taken w i el Hg Ht) in Hrun. by injection Hrun as _ <- _.
    + destruct Hm as [[Hm _]|(mv' & i' & el' & Hm & Hg' & Ht')]; [congruence|].
      rewrite Hg in Hg'. injection Hg' as <- <-. congruence.
  - rewrite (run_init_missing w Hg) in Hrun. by injection Hrun as _ <- _.
Qed.

Lemma viewing_invoke_all ls type b :
  registered ls -> page_inv (page b) -> viewing (page b) ->
  viewing (page (invoke_all ls type b)).
Proof.
  intros Hls. revert b. induction Hls as [|l ls -> _ IH]; intros b Hi Hv; [exact Hv|].
  cbn [invoke_all]. destruct (String.eqb "DOMContentLoaded" type); [|by apply IH].
  destruct (run init (page b)) as [[r w] tr] eqn:Hr.
  pose proof (viewing_run_init _ _ _ _ Hi Hv Hr) as ->.
  by apply IH.
Qed.

Lemma viewing_exec b acts :
  browser_inv b -> viewing (page b) -> viewing (page (exec b acts)).
Proof.
  revert b. induction acts as [|a acts IH]; intros b Hb Hv; [exact Hv|].
  apply IH; [by apply browser_inv_step|].
  destruct a as [|type|m c|m z|m c z]; cbn [step].
  - exact Hv.
  - apply viewing_invoke_all; [apply Hb | apply Hb | exact Hv].
  - by apply viewing_interact.
  - by apply viewing_interact.
  - by apply viewing_interact.
Qed.

Lemma exec_app b acts1 acts2 :
  exec b (acts1 ++ acts2) = exec (exec b acts1) acts2.
Proof. apply fold_left_app. Qed.

(** C4: the initializer runs only in response to the page-ready event,
    within that dispatch.  In every sequence of actions on a loaded page:
    as long as [DOMContentLoaded] has not fired, no map view and no tile
    layer exists and no library call has been made; at any point at most
    one map view exists; and in the page life cycle (the script file runs,
    then the event fires) the initializer runs exactly once. *)
Theorem initializer_runs_once_on_page_ready
    (p : list Node) (st : gmap string string) (acts : list Action) :
  (existsb is_page_ready acts = false ->
     maps (page (exec (load p st) acts)) = []
     /\ layers (page (exec (load p st) acts)) = []
     /\ calls (exec (load p st) acts) = [])
  /\ (length (maps (page (exec (load p st) acts))) <= 1)%nat
  /\ maps_requested (calls (exec (load p st) [RunScript; Fire "DOMContentLoaded"]))
     = 1%nat.
Proof.
  split; [|split].
  - intros Hq. apply (untouched_exec (load p st) acts Hq). repeat split. constructor.
  - apply page_inv_at_most_one_map.
    apply (browser_inv_exec (load p st) acts), browser_inv_load.
  - destruct (run init (page (load p st))) as [[r w] t] eqn:Hr.
    rewrite (page_ready_runs_init (load p st) eq_refl r w t Hr).
    cbn [calls load app]. by eapply run_init_requests_map_once.
Qed.

(** C7: every tile request is the configured URL template with its
    variables filled in.  In every sequence of actions on a loaded page:
    every URL requested so far is the template with a subdomain out of
    [a], [b], [c], [d] and integers for zoom, column and row; for the
    layer of the page and any tile, [getTileUrl] returns the template
    with the subdomain picked by column plus row, the zoom of the map's
    current view (within 0 to 19), and the tile's column and row; and
    when the page has its map, a drag to [center] sets that centre at the
    zoom in place, a zoom to [zoom] keeps the centre and sets the level
    limited to 0..19, any other gesture sets both, and each time the
    requests added are exactly the [getTileUrl] URLs, at the new zoom, of
    the tiles the layer has yet to fetch for the new view.  On a page
    with the mount element the map is there from the page life cycle
    on. *)
Theorem tile_requests_instantiate_template
    (p : list Node) (st : gmap string string) (acts : list Action) :
  Forall is_tile_request (requests (page (exec (load p st) acts)))
  /\ (forall ly c, ly ∈ layers (page (exec (load p st) acts)) ->
        exists mv z,
          maps (page (exec (load p st) acts)) = [mv]
          /\ _zoom mv = Some z /\ _tileZoom ly = Some z /\ 0 <= z <= 19
          /\ getTileUrl ly c
             = Ok (tile_url (subdomain_of c) z (tile_x c) (tile_y c) resolution))
  /\ (maps (page (exec (load p st) acts)) <> [] ->
      let b := exec (load p st) acts in
      exists mv c0 z0,
        maps (page b) = [mv] /\ _lastCenter mv = Some c0 /\ _zoom mv = Some z0
        /\ forall center zoom,
             gesture_requests b (step b (Pan 0%nat center)) center z0
             /\ gesture_requests b (step b (Zoom 0%nat zoom)) c0
                  (Z.max 0 (Z.min 19 zoom))
             /\ gesture_requests b (step b (Move 0%nat center zoom)) center
                  (Z.max 0 (Z.min 19 zoom)))
  /\ (has_element "map" p ->
      forall more,
        maps (page (exec (load p st)
                      ([RunScript; Fire "DOMContentLoaded"] ++ more))) <> []).
Proof.
  pose proof (page_shape_load p st acts) as Hs.
  split; [|split; [|split]].
  - apply (browser_inv_exec (load p st) acts), browser_inv_load.
  - intros ly c Hly.
    destruct Hs as [[_ Hl]|(mv & ly' & id & c0 & z & Hm & Hl & _ & _ & _ & _ & Hz
                             & Hr & _ & Htz & Hu & Ho)];
      [rewrite Hl in Hly; by apply elem_of_nil in Hly|].
    rewrite Hl in Hly. apply list_elem_of_singleton in Hly as ->.
    exists mv, z. repeat split; try assumption; try lia.
    apply (getTileUrl_at_zoom ly' c z); [|exact Htz].
    split; [exact Hu | by rewrite Ho].
  - intros Hne b.
    destruct Hs as [[Hm _]|Hv]; [done|].
    pose proof Hv as (mv & ly & id & c0 & z0 & Hm & _ & _ & _ & _ & Hc & Hz & Hr & _).
    exists mv, c0, z0. split; [exact Hm|]. split; [exact Hc|]. split; [exact Hz|].
    intros center zoom.
    assert (Hone : forall mv', maps (page b) = [mv'] -> mv' = mv)
      by (intros mv' Hm'; subst b; rewrite Hm in Hm'; by injection Hm' as <-).
    split; [|split]; cbn [step].
    + replace z0 with (Z.max 0 (Z.min 19 z0)) at 1 by lia.
      apply (interact_on_view b); [exact Hv|].
      intros mv' Hm'. rewrite (Hone mv' Hm'). cbn [target_of]. by rewrite Hz.
    + apply (interact_on_view b); [exact Hv|].
      intros mv' Hm'. rewrite (Hone mv' Hm'). cbn [target_of]. by rewrite Hc.
    + apply (interact_on_view b); [exact Hv|].
      intros mv' Hm'. reflexivity.
  - intros Hp more. rewrite exec_app.
    assert (Hv : viewing (page (exec (exec (load p st)
                                        [RunScript; Fire "DOMContentLoaded"]) more))).
    { apply viewing_exec; [apply browser_inv_exec, browser_inv_load|].
      destruct (run_init_on_page p st Hp) as (i & n & Hr).
      rewrite (page_ready_runs_init (load p st) eq_refl _ _ _ Hr).
      by apply viewing_after_init. }
    destruct Hv as (mv & ? & ? & ? & ? & -> & _). discriminate.
Qed.

(** ** Further properties of the script *)

(** X2: whatever the library answers, a layer reaches [addTo] only after
    [L.map], [setView] and [L.tileLayer] have all returned, in that order;
    the layer added is the one [L.tileLayer] returned, the map it is added
    to is the value [setView] returned, and nothing else is ever added. *)
Theorem layer_added_after_view_is_set (h : Handler) (w : World) (l m' : nat) :
  (l, m') ∈ layers_added (run_with h init w).2 ->
  layers_added (run_with h init w).2 = [(l, m')]
  /\ exists m w1 w2 w3,
       h _ (L_map "map") w = (Ok m, w1)
       /\ h _ (setView m {| lat := 32.7079; lng := -96.9209 |} 10) w1 = (Ok m', w2)
       /\ h _ (L_tileLayer tile_template tile_options) w2 = (Ok l, w3).
Proof.
  unfold init. cbn [run_with].
  destruct (h _ (L_map "map") w) as [[m|e] w1] eqn:H1;
    [|cbn; intros H; by apply elem_of_nil in H].
  destruct (h _ (setView m _ 10) w1) as [[m''|e] w2] eqn:H2;
    [|cbn; intros H; by apply elem_of_nil in H].
  destruct (h _ (L_tileLayer _ _) w2) as [[l'|e] w3] eqn:H3;
    [|cbn; intros H; by apply elem_of_nil in H].
  destruct (h _ (addTo l' m'') w3) as [[l''|e] w4]; cbn;
    intros H; apply list_elem_of_singleton in H; injection H as -> ->;
    (split; [reflexivity|]); by exists m, w1, w2, w3.
Qed.

(** The initializer's errors are those of [L.map]'s container check. *)
Lemma run_init_error w e w' t :
  run init w = (Throw e, w', t) -> container_error e.
Proof.
  intros Hr. destruct (getElementById "map" (dom w)) as [[i el]|] eqn:Hg.
  - destruct (truthy (el_leaflet_id el)) eqn:Ht.
    + rewrite (run_init_taken w i el Hg Ht) in Hr. injection Hr as <- _ _. by right.
    + rewrite (run_init_created w i el Hg Ht) in Hr. discriminate.
  - rewrite (run_init_missing w Hg) in Hr. injection Hr as <- _ _. by left.
Qed.

(** Once the initializer has run, it is refused from then on. *)
Lemma run_init_settles w : settled (run init w).1.2.
Proof.
  destruct (getElementById "map" (dom w)) as [[i el]|] eqn:Hg.
  - destruct (truthy (el_leaflet_id el)) eqn:Ht.
    + rewrite (run_init_taken w i el Hg Ht). cbn [fst snd].
      eexists. by apply (run_init_taken w i el).
    + rewrite (run_init_created w i el Hg Ht). cbn [fst snd]. eexists.
      apply (run_init_taken _ i (mounted el (S (lastId w)))); [|reflexivity].
      apply (getElementById_insert "map" (dom w) i el); [exact Hg|].
      by destruct (getElementById_Some _ _ _ _ Hg).
  - rewrite (run_init_missing w Hg). cbn [fst snd].
    eexists. by apply run_init_missing.
Qed.

(** X4: on a page whose mount element, if there is one, does not carry
    the stamp 0 (a value Leaflet never writes, and the one case in which
    the versions of [Util.stamp] differ), a run of the initializer,
    whatever it did, leaves a page state on which a further run is
    refused by [L.map] and changes nothing: no second map, no second
    layer, no further request. *)
Theorem init_twice_is_init_once (w : World) :
  (forall i el, getElementById "map" (dom w) = Some (i, el) ->
                el_leaflet_id el <> Some 0%nat) ->
  exists e,
    container_error e
    /\ run init (run init w).1.2
       = (Throw e, (run init w).1.2, [Called (L_map "map")]).
Proof.
  intros _. destruct (run_init_settles w) as [e He]. exists e.
  split; [by eapply run_init_error | exact He].
Qed.

Lemma invoke_all_listeners ls type b :
  listeners (invoke_all ls type b) = listeners b.
Proof.
  revert b. induction ls as [|[t l] ls IH]; intros b; cbn [invoke_all]; [reflexivity|].
  destruct (String.eqb t type); [|apply IH].
  destruct (run l (page b)) as [[r w] tr]. by rewrite IH.
Qed.

Lemma invoke_all_settled n b :
  settled (page b) ->
  page (invoke_all (repeat ("DOMContentLoaded", init) n) "DOMContentLoaded" b)
  = page b.
Proof.
  revert b. induction n as [|n IH]; intros b [e He]; [reflexivity|].
  cbn [repeat invoke_all]. rewrite String.eqb_refl, He.
  rewrite IH; [reflexivity|]. by exists e.
Qed.

Lemma exec_repeat_RunScript n b :
  exec b (repeat RunScript n)
  = {| page := page b;
       listeners := listeners b ++ repeat ("DOMContentLoaded", init) n;
       console := console b; calls := calls b |}.
Proof.
  revert b. induction n as [|n IH]; intros b.
  - cbn. rewrite app_nil_r. by destruct b.
  - cbn [repeat]. change (exec b (RunScript :: repeat RunScript n))
      with (exec (main b) (repeat RunScript n)).
    rewrite IH. unfold main, addEventListener. cbn [page listeners console calls].
    by rewrite <- app_assoc.
Qed.

Lemma exec_repeat_Fire_settled k b n :
  listeners b = repeat ("DOMContentLoaded", init) n ->
  settled (page b) ->
  page (exec b (repeat (Fire "DOMContentLoaded") k)) = page b.
Proof.
  revert b. induction k as [|k IH]; intros b Hl Hs; [reflexivity|].
  cbn [repeat]. change (exec b (Fire "DOMContentLoaded" :: repeat (Fire "DOMContentLoaded") k))
    with (exec (dispatchEvent "DOMContentLoaded" b) (repeat (Fire "DOMContentLoaded") k)).
  assert (Hp : page (dispatchEvent "DOMContentLoaded" b) = page b).
  { unfold dispatchEvent. rewrite Hl. by apply invoke_all_settled. }
  rewrite IH.
  - exact Hp.
  - unfold dispatchEvent. by rewrite invoke_all_listeners.
  - by rewrite Hp.
Qed.

(** X5: however often the script file is included in the page and however
    often the page-ready event is dispatched (at least once each), the page
    ends in the state one run of the initializer leaves. *)
Theorem repeated_inclusion_and_dispatch
    (p : list Node) (st : gmap string string) (n k : nat) :
  page (exec (load p st)
          (repeat RunScript (S n) ++ repeat (Fire "DOMContentLoaded") (S k)))
  = (run init (page (load p st))).1.2.
Proof.
  rewrite exec_app, exec_repeat_RunScript.
  cbn [load page listeners console calls app].
  set (b := {| page := _; listeners := _; console := _; calls := _ |}).
  cbn [repeat]. change (exec b (Fire "DOMContentLoaded" :: repeat (Fire "DOMContentLoaded") k))
    with (exec (dispatchEvent "DOMContentLoaded" b) (repeat (Fire "DOMContentLoaded") k)).
  assert (Hp : page (dispatchEvent "DOMContentLoaded" b)
               = (run init (page (load p st))).1.2).
  { unfold dispatchEvent. subst b. cbn [listeners repeat invoke_all page console calls].
    rewrite String.eqb_refl.
    destruct (run init (page (load p st))) as [[r w] t] eqn:Hr.
    cbn [load page] in Hr. rewrite Hr. cbn [fst snd].
    rewrite invoke_all_settled; [reflexivity|]. cbn [page].
    pose proof (run_init_settles (page (load p st))) as Hs.
    cbn [load page] in Hs. by rewrite Hr in Hs. }
  rewrite (exec_repeat_Fire_settled k _ (S n)).
  - exact Hp.
  - unfold dispatchEvent. by rewrite invoke_all_listeners.
  - rewrite Hp. apply run_init_settles.
Qed.

(** X3: the initializer runs on no other event.  The script registers
    its listener for [DOMContentLoaded] only: in any state a loaded page
    can reach, an event of another type on the document does not run the
    callback, so the script makes no library call and no map and no layer
    is created, and the script's listeners stay as they are. *)
Theorem other_events_do_not_run_init
    (p : list Node) (st : gmap string string) (acts : list Action) (type : string) :
  type <> "DOMContentLoaded" ->
  calls (step (exec (load p st) acts) (Fire type)) = calls (exec (load p st) acts)
  /\ length (maps (page (step (exec (load p st) acts) (Fire type))))
     = length (maps (page (exec (load p st) acts)))
  /\ length (layers (page (step (exec (load p st) acts) (Fire type))))
     = length (layers (page (exec (load p st) acts)))
  /\ listeners (step (exec (load p st) acts) (Fire type))
     = listeners (exec (load p st) acts).
Proof.
  intros Ht.
  assert (H : step (exec (load p st) acts) (Fire type) = exec (load p st) acts).
  { cbn [step]. unfold dispatchEvent. apply invoke_all_other.
    - apply (browser_inv_exec (load p st) acts), browser_inv_load.
    - apply String.eqb_neq. congruence. }
  by rewrite H.
Qed.

Lemma request_tiles_maps ly cs w r w' :
  request_tiles ly cs w = (r, w') -> maps w' = maps w.
Proof.
  revert w. induction cs as [|c cs IH]; intros w; cbn [request_tiles].
  - by intros [= _ <-].
  - destruct (getTileUrl ly c); [|by intros [= _ <-]].
    intros H. by apply IH in H.
Qed.

Lemma show_layer_maps m l w r w' :
  show_layer m l w = (r, w') -> maps w' = maps w.
Proof.
  unfold show_layer.
  destruct (maps w !! m); [|by intros [= _ <-]].
  destruct (layers w !! l); [|by intros [= _ <-]].
  cbv zeta. destruct (_tileZoom _); [|by intros [= _ <-]].
  intros H. by apply request_tiles_maps in H.
Qed.

Lemma show_layers_maps m first ls w r w' :
  show_layers m first ls w = (r, w') -> maps w' = maps w.
Proof.
  revert w. induction ls as [|l ls IH]; intros w; cbn [show_layers].
  - by intros [= _ <-].
  - destruct (layers w !! l) as [ly|]; [|apply IH].
    destruct (first || bool_decide (_map ly = Some m)); [|apply IH].
    destruct (show_layer m l w) as [[u|e] w1] eqn:Hs.
    + intros H. apply IH in H. rewrite H. by eapply show_layer_maps.
    + intros [= _ <-]. by eapply show_layer_maps.
Qed.

Lemma view_reset_maps m c z w mv r w' :
  maps w !! m = Some mv -> view_reset m c z w = (r, w') ->
  maps w' = <[m := moved mv c z]> (maps w).
Proof.
  intros Hm. unfold view_reset. rewrite Hm. intros H.
  by apply show_layers_maps in H.
Qed.

Lemma moved_zoom_in_range mv c z : zoom_in_range mv -> zoom_in_range (moved mv c z).
Proof.
  intros [Hx _]. split; [exact Hx|]. exists (_limitZoom mv z).
  split; [reflexivity|]. unfold _limitZoom. rewrite Hx. lia.
Qed.

Lemma zoom_in_range_run_init w r w' t :
  Forall zoom_in_range (maps w) -> run init w = (r, w', t) ->
  Forall zoom_in_range (maps w').
Proof.
  intros Hz Hr. destruct (getElementById "map" (dom w)) as [[i el]|] eqn:Hg.
  - destruct (truthy (el_leaflet_id el)) eqn:Ht.
    + rewrite (run_init_taken w i el Hg Ht) in Hr. by injection Hr as _ <- _.
    + rewrite (run_init_created w i el Hg Ht) in Hr. injection Hr as _ <- _.
      apply Forall_app. split; [exact Hz|]. constructor; [|constructor].
      split; [reflexivity|]. exists 10. split; [reflexivity | lia].
  - rewrite (run_init_missing w Hg) in Hr. by injection Hr as _ <- _.
Qed.

Lemma zoom_in_range_invoke_all ls type b :
  registered ls -> Forall zoom_in_range (maps (page b)) ->
  Forall zoom_in_range (maps (page (invoke_all ls type b))).
Proof.
  intros Hls. revert b. induction Hls as [|l ls -> _ IH]; intros b Hb; [exact Hb|].
  cbn [invoke_all]. destruct (String.eqb "DOMContentLoaded" type); [|by apply IH].
  destruct (run init (page b)) as [[r w] tr] eqn:Hr. apply IH. cbn [page].
  by eapply zoom_in_range_run_init.
Qed.

Lemma zoom_in_range_interact m target b :
  Forall zoom_in_range (maps (page b)) ->
  Forall zoom_in_range (maps (page (interact m target b))).
Proof.
  intros Hz. unfold interact.
  destruct (maps (page b) !! m) as [mv|] eqn:Hm; [|exact Hz].
  destruct (if _loaded mv then target mv else None) as [[c z]|]; [|exact Hz].
  destruct (view_reset m c z (page b)) as [r w] eqn:Hv. cbn [page].
  rewrite (view_reset_maps _ _ _ _ _ _ _ Hm Hv).
  apply Forall_insert; [exact Hz|]. apply moved_zoom_in_range.
  exact (proj1 (Forall_lookup _ _) Hz m mv Hm).
Qed.

Lemma zoom_in_range_exec b acts :
  browser_inv b -> Forall zoom_in_range (maps (page b)) ->
  Forall zoom_in_range (maps (page (exec b acts))).
Proof.
  revert b. induction acts as [|a acts IH]; intros b Hb Hz; [exact Hz|].
  apply IH; [by apply browser_inv_step|].
  destruct a as [|type|m c|m z|m c z]; cbn [step].
  - exact Hz.
  - apply zoom_in_range_invoke_all; [apply Hb | exact Hz].
  - by apply zoom_in_range_interact.
  - by apply zoom_in_range_interact.
  - by apply zoom_in_range_interact.
Qed.

(** X6: the layer's [maxZoom] bounds the map for good: in every state a
    loaded page can reach, through page-ready events, drags and zooms to
    any level, the zoom of every map lies between 0 and 19. *)
Theorem zoom_stays_in_range
    (p : list Node) (st : gmap string string) (acts : list Action) :
  Forall (fun mv => exists z, _zoom mv = Some z /\ 0 <= z <= 19)
    (maps (page (exec (load p st) acts))).
Proof.
  eapply Forall_impl.
  - apply zoom_in_range_exec; [apply browser_inv_load | constructor].
  - by intros mv [_ H].
Qed.

Lemma show_layer_ok m l w r w' :
  Forall configured (layers w) -> show_layer m l w = (r, w') -> r = Ok tt.
Proof.
  intros Hc. unfold show_layer.
  destruct (maps w !! m) as [mv|]; [|by intros [= <- _]].
  destruct (layers w !! l) as [ly|] eqn:Hl; [|by intros [= <- _]].
  cbv zeta. set (ly' := at_zoom (attach ly m) (tile_zoom_for ly mv)).
  assert (Hly : configured ly')
    by exact (proj1 (Forall_lookup _ _) Hc l ly Hl).
  destruct (_tileZoom ly') as [tz|] eqn:Hz; [|by intros [= <- _]].
  match goal with
  | |- context [request_tiles ?a ?cs ?w0] =>
      destruct (request_tiles_configured a cs w0 tz Hly Hz) as [-> _]
  end.
  by intros [= <- _].
Qed.

Lemma show_layers_ok m first ls w r w' :
  Forall configured (layers w) -> show_layers m first ls w = (r, w') -> r = Ok tt.
Proof.
  revert w. induction ls as [|l ls IH]; intros w Hc; cbn [show_layers].
  - by intros [= <- _].
  - destruct (layers w !! l) as [ly|]; [|by apply IH].
    destruct (first || bool_decide (_map ly = Some m)); [|by apply IH].
    destruct (show_layer m l w) as [[u|e] w1] eqn:Hs.
    + apply IH. by apply (show_layer_same_page _ _ _ _ _ Hc Hs).
    + by apply (show_layer_ok _ _ _ _ _ Hc) in Hs.
Qed.

Lemma interact_console m target b :
  browser_inv b -> console (interact m target b) = console b.
Proof.
  intros [_ (Hc & _)]. unfold interact.
  destruct (maps (page b) !! m) as [mv|] eqn:Hm; [|reflexivity].
  destruct (if _loaded mv then target mv else None) as [[c z]|]; [|reflexivity].
  destruct (view_reset m c z (page b)) as [r w] eqn:Hv. cbn [console].
  unfold view_reset in Hv. rewrite Hm in Hv.
  apply show_layers_ok in Hv; [by subst r | exact Hc].
Qed.

Lemma invoke_all_console ls type b :
  registered ls -> Forall container_error (console b) ->
  Forall container_error (console (invoke_all ls type b)).
Proof.
  intros Hls. revert b. induction Hls as [|l ls -> _ IH]; intros b Hb; [exact Hb|].
  cbn [invoke_all]. destruct (String.eqb "DOMContentLoaded" type); [|by apply IH].
  destruct (run init (page b)) as [[[u|e] w] tr] eqn:Hr; apply IH; cbn [console];
    [exact Hb|].
  apply Forall_app. split; [exact Hb|]. constructor; [|constructor].
  by eapply run_init_error.
Qed.

Lemma console_exec b acts :
  browser_inv b -> Forall container_error (console b) ->
  Forall container_error (console (exec b acts)).
Proof.
  revert b. induction acts as [|a acts IH]; intros b Hb Hz; [exact Hz|].
  apply IH; [by apply browser_inv_step|].
  destruct a as [|type|m c|m z|m c z]; cbn [step].
  - exact Hz.
  - apply invoke_all_console; [apply Hb | exact Hz].
  - by rewrite interact_console.
  - by rewrite interact_console.
  - by rewrite interact_console.
Qed.

(** X7: the only errors a page ever reports are the two of [L.map]'s
    container check.  Setting the view, building and adding the layer,
    and every tile URL a drag or a zoom asks for succeed: the template
    names no variable that [getTileUrl] does not supply.  On a page with
    the mount element the page life cycle reports no error at all. *)
Theorem only_container_errors
    (p : list Node) (st : gmap string string) (acts : list Action) :
  Forall container_error (console (exec (load p st) acts))
  /\ (has_element "map" p ->
      console (exec (load p st) [RunScript; Fire "DOMContentLoaded"]) = []).
Proof.
  split.
  - apply console_exec; [apply browser_inv_load | constructor].
  - intros Hp. destruct (run_init_on_page p st Hp) as (i & n & Hr).
    by rewrite (page_ready_runs_init (load p st) eq_refl _ _ _ Hr).
Qed.

Lemma all_num_pretty_N_go (x : N) (s : string) :
  all_num s = true -> all_num (pretty_N_go x s) = true.
Proof.
  revert s. induction (N.lt_wf_0 x) as [x _ IH]; intros s Hs.
  assert (x = 0 \/ 0 < x)%N as [->|Hx] by lia.
  - by rewrite pretty_N_go_0.
  - rewrite pretty_N_go_step by done. apply IH; [by apply N.div_lt|].
    cbn [all_num]. rewrite Hs, andb_true_r.
    unfold pretty_N_char. by repeat case_match.
Qed.

Lemma all_num_pretty_Z (z : Z) : all_num (pretty z) = true.
Proof.
  assert (HN : forall n : N, all_num (pretty n) = true).
  { intros n. unfold pretty, pretty_N. case_decide; [reflexivity|].
    by apply all_num_pretty_N_go. }
  destruct z as [|q|q]; [reflexivity | exact (HN (N.pos q)) | exact (HN (N.pos q))].
Qed.

(** A printed integer ends where the next character is no digit. *)
Lemma num_split (a b : string) c1 r1 c2 r2 :
  all_num a = true -> all_num b = true ->
  is_num_char c1 = false -> is_num_char c2 = false ->
  a +:+ String c1 r1 = b +:+ String c2 r2 ->
  a = b /\ String c1 r1 = String c2 r2.
Proof.
  revert b. induction a as [|c a IH]; intros [|d b] Ha Hb H1 H2; cbn; intros H.
  - done.
  - injection H as -> _. cbn in Hb. apply andb_true_iff in Hb as [Hb _]. congruence.
  - injection H as -> _. cbn in Ha. apply andb_true_iff in Ha as [Ha _]. congruence.
  - injection H as -> H. cbn in Ha, Hb.
    apply andb_true_iff in Ha as [_ Ha]. apply andb_true_iff in Hb as [_ Hb].
    destruct (IH b Ha Hb H1 H2 H) as [-> ->]. done.
Qed.

Lemma tile_url_inj s s' z z' x x' y y' :
  s ∈ ["a"; "b"; "c"; "d"] -> s' ∈ ["a"; "b"; "c"; "d"] ->
  tile_url s z x y resolution = tile_url s' z' x' y' resolution ->
  z = z' /\ x = x' /\ y = y'.
Proof.
  intros Hs Hs' H. unfold tile_url in H.
  assert (Hrest : pretty z +:+ "/" +:+ pretty x +:+ "/" +:+ pretty y +:+ resolution +:+ ".png"
                = pretty z' +:+ "/" +:+ pretty x' +:+ "/" +:+ pretty y' +:+ resolution +:+ ".png").
  { repeat (apply elem_of_cons in Hs as [->|Hs]); [..|by apply elem_of_nil in Hs];
    repeat (apply elem_of_cons in Hs' as [->|Hs']); try (by apply elem_of_nil in Hs');
    cbn [String.append] in H; first [by injection H | discriminate H]. }
  clear H.
  apply num_split in Hrest as [Hz Hrest]; try apply all_num_pretty_Z; try reflexivity.
  injection Hrest as Hrest.
  apply num_split in Hrest as [Hx Hrest]; try apply all_num_pretty_Z; try reflexivity.
  injection Hrest as Hrest.
  assert (Hy : pretty y = pretty y').
  { unfold resolution in Hrest. destruct retina; cbn [String.append] in Hrest;
      apply num_split in Hrest as [Hy _];
      try apply all_num_pretty_Z; try reflexivity; exact Hy. }
  split; [|split]; by apply (inj pretty).
Qed.

(** X8: tiles that differ are requested under URLs that differ.  For
    layers with the template and subdomains of the script, each showing
    tiles at some zoom, and tiles whose column and row are exact JS
    numbers: when the tile zooms, the columns or the rows differ, the
    URLs [getTileUrl] returns differ.  The [z] of the coordinates plays
    no part: the URL carries the layer's tile zoom. *)
Theorem tile_urls_are_distinct (ly ly' : TileLayer) (c c' : Coords) (z z' : Z) :
  configured ly -> configured ly' ->
  _tileZoom ly = Some z -> _tileZoom ly' = Some z' ->
  exact_coords c -> exact_coords c' ->
  (z, tile_x c, tile_y c) <> (z', tile_x c', tile_y c') ->
  getTileUrl ly c <> getTileUrl ly' c'.
Proof.
  intros Hc Hc' Hz Hz' _ _ Hne Heq.
  rewrite (getTileUrl_at_zoom ly c z Hc Hz) in Heq.
  rewrite (getTileUrl_at_zoom ly' c' z' Hc' Hz') in Heq.
  assert (Hurl : request_url z c = request_url z' c') by congruence.
  unfold request_url in Hurl.
  apply tile_url_inj in Hurl as (Ez & Ex & Ey); [|apply subdomain_of_abcd..].
  apply Hne. congruence.
Qed.

End Leaflet.

(** ** Checks on concrete inputs *)

Example template_demo :
  template "a{ x}b{-}{" {[ "x" := "1"; "-" := "m" ]} = Ok "a1bm{".
Proof. vm_compute. reflexivity. Qed.

Example pretty_demo : pretty (-19) = "-19" /\ pretty 0 = "0".
Proof. vm_compute. split; reflexivity. Qed.

(** ** Independence from the rest of the environment *)

(** C5: the initializer reads nothing but the page.  Two runs on page
    states with equal DOMs have the same outcome (the same error, or the
    same map configuration: center, zoom, URL template, subdomains,
    attribution and maximum zoom), whatever else differs between them: the
    storage, the stamp counter, the objects and requests that already
    exist, the display resolution, the tiles a view needs.  When a map is
    created, its configuration is the one written in the script. *)
Theorem init_is_deterministic
    (retina1 retina2 : bool)
    (tiles1 tiles2 : list string -> MapView -> TileLayer -> list Coords)
    (w1 w2 : World) :
  dom w1 = dom w2 ->
  outcome retina1 tiles1 w1 = outcome retina2 tiles2 w2
  /\ forall cfgs, outcome retina1 tiles1 w1 = Ok cfgs -> cfgs = [script_config].
Proof.
  intros Hd.
  destruct (getElementById "map" (dom w1)) as [[i el]|] eqn:Hg.
  - destruct (truthy (el_leaflet_id el)) eqn:Ht.
    + rewrite (outcome_taken retina1 tiles1 w1 i el Hg Ht).
      rewrite Hd in Hg. rewrite (outcome_taken retina2 tiles2 w2 i el Hg Ht).
      split; [reflexivity | discriminate].
    + rewrite (outcome_created retina1 tiles1 w1 i el Hg Ht).
      rewrite Hd in Hg. rewrite (outcome_created retina2 tiles2 w2 i el Hg Ht).
      split; [reflexivity | congruence].
  - rewrite (outcome_missing retina1 tiles1 w1 Hg).
    rewrite Hd in Hg. rewrite (outcome_missing retina2 tiles2 w2 Hg).
    split; [reflexivity | discriminate].
Qed.

(** ** The statements at the sample pages *)

Lemma sample_page_has_map : has_element "map" sample_page.
Proof. unfold has_element. cbn. apply list_elem_of_further, list_elem_of_here. Qed.

Lemma bare_page_has_no_map : ~ has_element "map" bare_page.
Proof.
  unfold has_element. cbn. intros H.
  apply elem_of_cons in H as [H|H]; [discriminate|]. by apply elem_of_nil in H.
Qed.

Example sample_requests :
  requests (page (exec true sample_tiles (load sample_page ∅)
                    [RunScript; Fire "DOMContentLoaded"; Zoom 0%nat 25]))
  = [ "https://d.basemaps.cartocdn.com/dark_all/10/1/2@2x.png";
      "https://a.basemaps.cartocdn.com/dark_all/10/2/2@2x.png";
      "https://b.basemaps.cartocdn.com/dark_all/19/3/2@2x.png" ].
Proof. vm_compute. reflexivity. Qed.

Example second_dispatch_is_refused :
  console (exec false sample_tiles (load sample_page ∅)
             [RunScript; Fire "DOMContentLoaded"; Fire "DOMContentLoaded"])
  = ["Map container is already initialized."].
Proof. vm_compute. reflexivity. Qed.

Lemma init_creates_one_centered_view_witness :
  has_element "map" sample_page
  /\ exists w' t mv,
       run true sample_tiles init (page (load sample_page ∅)) = (Ok tt, w', t)
       /\ maps w' = [mv]
       /\ maps_requested t = 1%nat
       /\ _lastCenter mv = Some {| lat := 32.7079; lng := -96.9209 |}
       /\ _zoom mv = Some 10.
Proof.
  split; [exact sample_page_has_map|].
  exact (init_creates_one_centered_view true sample_tiles sample_page ∅
           sample_page_has_map).
Defined.

Lemma init_attaches_one_tile_layer_witness :
  has_element "map" sample_page
  /\ exists w' t mv ly,
       run false sample_tiles init (page (load sample_page ∅)) = (Ok tt, w', t)
       /\ maps w' = [mv]
       /\ layers_on w' mv = [ly]
       /\ layers w' = [ly]
       /\ _map ly = Some 0%nat
       /\ _url ly = "https://{s}.basemaps.cartocdn.com/dark_all/{z}/{x}/{y}{r}.png"
       /\ subdomains (options ly) = "abcd"
       /\ attribution (options ly)
          = "&copy; <a href=" +:+ dq +:+ "https://www.openstreetmap.org/" +:+ dq
            +:+ ">OpenStreetMap</a> contributors &copy; <a href=" +:+ dq
            +:+ "https://carto.com/" +:+ dq +:+ ">CARTO</a>"
       /\ maxZoom (options ly) = 19.
Proof.
  split; [exact sample_page_has_map|].
  exact (init_attaches_one_tile_layer false sample_tiles sample_page ∅
           sample_page_has_map).
Defined.

Lemma initializer_runs_once_on_page_ready_witness :
  existsb is_page_ready [RunScript; Zoom 0%nat 3; Fire "click"] = false
  /\ maps (page (exec true sample_tiles (load sample_page ∅)
                   [RunScript; Zoom 0%nat 3; Fire "click"])) = []
  /\ layers (page (exec true sample_tiles (load sample_page ∅)
                     [RunScript; Zoom 0%nat 3; Fire "click"])) = []
  /\ calls (exec true sample_tiles (load sample_page ∅)
              [RunScript; Zoom 0%nat 3; Fire "click"]) = [].
Proof.
  split; [reflexivity|].
  apply (initializer_runs_once_on_page_ready true sample_tiles sample_page ∅
           [RunScript; Zoom 0%nat 3; Fire "click"]).
  reflexivity.
Defined.

Lemma init_is_deterministic_witness :
  dom sample_world
  = dom {| dom := dom sample_world; lastId := 7; maps := []; layers := [];
           requests := ["https://example.org/"];
           storage := {[ "theme" := "dark" ]} |}
  /\ outcome true sample_tiles sample_world
     = outcome false (fun _ _ _ => [])
         {| dom := dom sample_world; lastId := 7; maps := []; layers := [];
            requests := ["https://example.org/"];
            storage := {[ "theme" := "dark" ]} |}.
Proof.
  split; [reflexivity|].
  apply (init_is_deterministic true false sample_tiles (fun _ _ _ => [])).
  reflexivity.
Defined.

Lemma missing_mount_fails_visibly_witness :
  ~ has_element "map" bare_page
  /\ run true sample_tiles init (page (load bare_page ∅))
     = (Throw "Map container not found.", page (load bare_page ∅),
        [Called (L_map "map")])
  /\ maps (page (exec true sample_tiles (load bare_page ∅)
                   [RunScript; Fire "DOMContentLoaded"])) = []
  /\ console (exec true sample_tiles (load bare_page ∅)
                [RunScript; Fire "DOMContentLoaded"])
     = ["Map container not found."].
Proof.
  split; [exact bare_page_has_no_map|].
  exact (missing_mount_fails_visibly true sample_tiles bare_page ∅
           bare_page_has_no_map).
Defined.

Lemma init_stops_when_map_fails_witness :
  handle true sample_tiles (L_map "map") (page (load bare_page ∅))
  = (Throw "Map container not found.", page (load bare_page ∅))
  /\ run true sample_tiles init (page (load bare_page ∅))
     = (Throw "Map container not found.", page (load bare_page ∅),
        [Called (L_map "map")]).
Proof.
  split; [reflexivity|].
  apply (init_stops_when_map_fails true sample_tiles
           (page (load bare_page ∅)) (page (load bare_page ∅))
           "Map container not found.").
  reflexivity.
Defined.

Lemma init_frame_witness :
  run true sample_tiles init sample_world
  = (Ok tt, after_init true sample_tiles sample_world 1 sample_mount,
     init_calls sample_world)
  /\ storage (after_init true sample_tiles sample_world 1 sample_mount)
     = storage sample_world
  /\ dom (after_init true sample_tiles sample_world 1 sample_mount) !! 0%nat
     = dom sample_world !! 0%nat.
Proof.
  assert (H : run true sample_tiles init sample_world
    = (Ok tt, after_init true sample_tiles sample_world 1 sample_mount,
       init_calls sample_world)) by (vm_compute; reflexivity).
  split; [exact H|].
  destruct (init_frame true sample_tiles _ _ _ _ H) as (Hs & _ & _ & Hd & _).
  split; [exact Hs|]. apply Hd. vm_compute. discriminate.
Defined.

Lemma tile_requests_instantiate_template_witness :
  has_element "map" sample_page
  /\ maps (page (exec true sample_tiles (load sample_page ∅)
                   [RunScript; Fire "DOMContentLoaded";
                    Pan 0%nat {| lat := 33; lng := -97 |}])) <> []
  /\ created_layer sample_world
     ∈ layers (page (exec true sample_tiles (load sample_page ∅)
                       [RunScript; Fire "DOMContentLoaded";
                        Pan 0%nat {| lat := 33; lng := -97 |}]))
  /\ (exists mv z,
        maps (page (exec true sample_tiles (load sample_page ∅)
                      [RunScript; Fire "DOMContentLoaded";
                       Pan 0%nat {| lat := 33; lng := -97 |}])) = [mv]
        /\ _zoom mv = Some z /\ _tileZoom (created_layer sample_world) = Some z
        /\ 0 <= z <= 19
        /\ getTileUrl true (created_layer sample_world)
             {| tile_x := 5; tile_y := 6; tile_z := 4 |}
           = Ok (tile_url "d" z 5 6 (resolution true)))
  /\ (exists mv c0 z0,
        maps (page (exec true sample_tiles (load sample_page ∅)
                      [RunScript; Fire "DOMContentLoaded";
                       Pan 0%nat {| lat := 33; lng := -97 |}])) = [mv]
        /\ _lastCenter mv = Some c0 /\ _zoom mv = Some z0
        /\ gesture_requests true sample_tiles
             (exec true sample_tiles (load sample_page ∅)
                [RunScript; Fire "DOMContentLoaded";
                 Pan 0%nat {| lat := 33; lng := -97 |}])
             (step true sample_tiles
                (exec true sample_tiles (load sample_page ∅)
                   [RunScript; Fire "DOMContentLoaded";
                    Pan 0%nat {| lat := 33; lng := -97 |}])
                (Zoom 0%nat 25))
             c0 19)
  /\ maps (page (exec true sample_tiles (load sample_page ∅)
                   ([RunScript; Fire "DOMContentLoaded"]
                    ++ [Fire "DOMContentLoaded"; Zoom 0%nat 3]))) <> [].
Proof.
  assert (Hne : maps (page (exec true sample_tiles (load sample_page ∅)
                   [RunScript; Fire "DOMContentLoaded";
                    Pan 0%nat {| lat := 33; lng := -97 |}])) <> [])
    by (vm_compute; discriminate).
  assert (Hl : created_layer sample_world
     ∈ layers (page (exec true sample_tiles (load sample_page ∅)
                       [RunScript; Fire "DOMContentLoaded";
                        Pan 0%nat {| lat := 33; lng := -97 |}])))
    by (vm_compute; apply list_elem_of_here).
  destruct (tile_requests_instantiate_template true sample_tiles sample_page ∅
              [RunScript; Fire "DOMContentLoaded";
               Pan 0%nat {| lat := 33; lng := -97 |}])
    as (_ & H2 & H3 & H4).
  split; [exact sample_page_has_map|]. split; [exact Hne|]. split; [exact Hl|].
  split; [|split].
  - exact (H2 (created_layer sample_world)
              {| tile_x := 5; tile_y := 6; tile_z := 4 |} Hl).
  - destruct (H3 Hne) as (mv & c0 & z0 & Hm & Hc & Hz & Hg).
    exists mv, c0, z0. split; [exact Hm|]. split; [exact Hc|]. split; [exact Hz|].
    exact (proj1 (proj2 (Hg c0 25))).
  - exact (H4 sample_page_has_map [Fire "DOMContentLoaded"; Zoom 0%nat 3]).
Defined.

Example zoom_follows_into_the_url :
  requests (page (exec false sample_tiles (load sample_page ∅)
                    [RunScript; Fire "DOMContentLoaded";
                     Pan 0%nat {| lat := 33; lng := -97 |};
                     Move 0%nat {| lat := 40; lng := -74 |} 12]))
  = [ "https://d.basemaps.cartocdn.com/dark_all/10/1/2.png";
      "https://a.basemaps.cartocdn.com/dark_all/10/2/2.png";
      "https://b.basemaps.cartocdn.com/dark_all/10/3/2.png";
      "https://c.basemaps.cartocdn.com/dark_all/12/4/2.png" ].
Proof. vm_compute. reflexivity. Qed.

Example zoom_request_is_limited :
  _zoom <$> maps (page (exec false sample_tiles (load sample_page ∅)
                          [RunScript; Fire "DOMContentLoaded"; Zoom 0%nat 25;
                           Zoom 0%nat (-3)]))
  = [Some 0]
  /\ _zoom <$> maps (page (exec false sample_tiles (load sample_page ∅)
                             [RunScript; Fire "DOMContentLoaded"; Zoom 0%nat 25]))
     = [Some 19].
Proof. vm_compute. split; reflexivity. Qed.

Lemma layer_added_after_view_is_set_witness :
  (0%nat, 0%nat)
    ∈ layers_added (run_with (@handle true sample_tiles) init sample_world).2
  /\ layers_added (run_with (@handle true sample_tiles) init sample_world).2
     = [(0%nat, 0%nat)]
  /\ exists m w1 w2 w3,
       handle true sample_tiles (L_map "map") sample_world = (Ok m, w1)
       /\ handle true sample_tiles
            (setView m {| lat := 32.7079; lng := -96.9209 |} 10) w1
          = (Ok 0%nat, w2)
       /\ handle true sample_tiles (L_tileLayer tile_template tile_options) w2
          = (Ok 0%nat, w3).
Proof.
  assert (H : (0%nat, 0%nat)
    ∈ layers_added (run_with (@handle true sample_tiles) init sample_world).2)
    by (vm_compute; apply list_elem_of_here).
  split; [exact H|].
  exact (layer_added_after_view_is_set (@handle true sample_tiles) sample_world
           0%nat 0%nat H).
Defined.

Lemma other_events_do_not_run_init_witness :
  "keydown" <> "DOMContentLoaded"
  /\ calls (step true sample_tiles
              (exec true sample_tiles (load sample_page ∅) [RunScript])
              (Fire "keydown"))
     = calls (exec true sample_tiles (load sample_page ∅) [RunScript])
  /\ length (maps (page (step true sample_tiles
                           (exec true sample_tiles (load sample_page ∅) [RunScript])
                           (Fire "keydown"))))
     = length (maps (page (exec true sample_tiles (load sample_page ∅) [RunScript])))
  /\ length (layers (page (step true sample_tiles
                             (exec true sample_tiles (load sample_page ∅) [RunScript])
                             (Fire "keydown"))))
     = length (layers (page (exec true sample_tiles (load sample_page ∅) [RunScript])))
  /\ listeners (step true sample_tiles
                  (exec true sample_tiles (load sample_page ∅) [RunScript])
                  (Fire "keydown"))
     = listeners (exec true sample_tiles (load sample_page ∅) [RunScript]).
Proof.
  assert (H : "keydown" <> "DOMContentLoaded") by discriminate.
  split; [exact H|].
  exact (other_events_do_not_run_init true sample_tiles sample_page ∅ [RunScript]
           "keydown" H).
Defined.

Lemma init_twice_is_init_once_witness :
  (forall i el, getElementById "map" (dom sample_world) = Some (i, el) ->
                el_leaflet_id el <> Some 0%nat)
  /\ exists e,
       container_error e
       /\ run true sample_tiles init (run true sample_tiles init sample_world).1.2
          = (Throw e, (run true sample_tiles init sample_world).1.2,
             [Called (L_map "map")]).
Proof.
  assert (H : forall i el, getElementById "map" (dom sample_world) = Some (i, el) ->
                           el_leaflet_id el <> Some 0%nat).
  { intros i el Hg. vm_compute in Hg. injection Hg as _ <-. discriminate. }
  split; [exact H|].
  exact (init_twice_is_init_once true sample_tiles sample_world H).
Defined.

Lemma only_container_errors_witness :
  has_element "map" sample_page
  /\ console (exec true sample_tiles (load sample_page ∅)
                [RunScript; Fire "DOMContentLoaded"]) = [].
Proof.
  split; [exact sample_page_has_map|].
  exact (proj2 (only_container_errors true sample_tiles sample_page ∅ [])
           sample_page_has_map).
Defined.

Lemma tile_urls_are_distinct_witness :
  configured (at_zoom (created_layer sample_world) (Some 7))
  /\ configured (at_zoom (created_layer sample_world) (Some 10))
  /\ exact_coords {| tile_x := 1; tile_y := 2; tile_z := 7 |}
  /\ (7, 1, 2) <> (10, 1, 2)
  /\ getTileUrl true (at_zoom (created_layer sample_world) (Some 7))
       {| tile_x := 1; tile_y := 2; tile_z := 7 |}
     <> getTileUrl true (at_zoom (created_layer sample_world) (Some 10))
          {| tile_x := 1; tile_y := 2; tile_z := 7 |}
  /\ getTileUrl true (created_layer sample_world)
       {| tile_x := 1; tile_y := 2; tile_z := 10 |}
     <> getTileUrl true (created_layer sample_world)
          {| tile_x := 5; tile_y := 2; tile_z := 10 |}
  /\ getTileUrl true (created_layer sample_world)
       {| tile_x := 1; tile_y := 2; tile_z := 10 |}
     <> getTileUrl true (created_layer sample_world)
          {| tile_x := 1; tile_y := 6; tile_z := 10 |}.
Proof.
  assert (Hc : forall z, configured (at_zoom (created_layer sample_world) z))
    by (intros z; split; reflexivity).
  assert (Hc' : configured (created_layer sample_world)) by (split; reflexivity).
  assert (He : forall x y z, Z.abs x < 2 ^ 52 -> Z.abs y < 2 ^ 52 ->
                 exact_coords {| tile_x := x; tile_y := y; tile_z := z |})
    by (intros x y z Hx Hy; split; assumption).
  assert (Hne : (7, 1, 2) <> (10, 1, 2)) by discriminate.
  split; [apply Hc|]. split; [apply Hc|].
  split; [apply He; reflexivity|]. split; [exact Hne|].
  split; [|split].
  - exact (tile_urls_are_distinct true _ _
             {| tile_x := 1; tile_y := 2; tile_z := 7 |}
             {| tile_x := 1; tile_y := 2; tile_z := 7 |} 7 10
             (Hc _) (Hc _) eq_refl eq_refl
             (He 1 2 7 eq_refl eq_refl) (He 1 2 7 eq_refl eq_refl) Hne).
  - apply (tile_urls_are_distinct true _ _ _ _ 10 10 Hc' Hc' eq_refl eq_refl).
    + apply He; reflexivity.
    + apply He; reflexivity.
    + vm_compute. discriminate.
  - apply (tile_urls_are_distinct true _ _ _ _ 10 10 Hc' Hc' eq_refl eq_refl).
    + apply He; reflexivity.
    + apply He; reflexivity.
    + vm_compute. discriminate.
Defined.
